(** * organize.cpp: a shallow embedding of the file organizer

    The program sorts the regular files of one directory into category
    sub-folders chosen from the file extension.  This development embeds
    [src/organize.cpp] function by function and states the properties of
    the specification over the embedding.

    Modelling conventions.
    - A [std::string] / [std::string_view] is a [string]; a [char] is an
      [ascii].
    - [std::unordered_map<std::string, T>] is a [gmap string T].  The
      constant [FOLDER_MAP] is also iterated by the program, so it is kept
      as the list of its initialiser, in the order of the source text;
      [build_extension_map_order] and [ensure_folders_loop_order] show
      that another order of iteration gives the same index and the same
      folders.
    - The directory being organized is a finite map from entry names to
      nodes; a sub-directory carries the map of its own entries.  There
      are no symbolic links: the resolved path of an entry of the
      canonical directory is the directory's path followed by its name.
    - A [fs::path] is its string; [operator/] is [path_append].
    - What the operating system may refuse or fail to do for reasons
      outside the directory contents (permissions, full disk, devices,
      input or output errors) is an oracle [faults], fixed for a run.
    - An exception that leaves a function is the [Thrown] outcome; the
      directory reached so far is returned next to it, since nothing is
      rolled back.  An exception that leaves [main] ends the program by
      [std::terminate]: [main] returns no exit code, and the model gives
      the status [aborted] and the lines of the program's own output
      statements, of which there are none by then. *)

From Stdlib Require Import ZArith NArith Ascii String.
From stdpp Require Import gmap strings list fin_maps.

Local Open Scope string_scope.
Local Open Scope list_scope.

(** ** Characters *)

Module Chars.

(** [std::tolower] in the "C" locale (the program never calls
    [setlocale]): the 26 capital letters are shifted, everything else is
    returned as it is. *)
Definition tolower (c : ascii) : ascii :=
  let n := N_of_ascii c in
  if ((65 <=? n) && (n <=? 90))%N then ascii_of_N (n + 32) else c.

(** The inverse folding, used only to state case-insensitivity. *)
Definition toupper (c : ascii) : ascii :=
  let n := N_of_ascii c in
  if ((97 <=? n) && (n <=? 122))%N then ascii_of_N (n - 32) else c.

(** [std::transform(..., tolower)] over a whole string. *)
Fixpoint lower (s : string) : string :=
  match s with
  | EmptyString => EmptyString
  | String c r => String (tolower c) (lower r)
  end.

Fixpoint upper (s : string) : string :=
  match s with
  | EmptyString => EmptyString
  | String c r => String (toupper c) (upper r)
  end.

(** [v] spells [e] with some letters in the other case. *)
Fixpoint case_variant (v e : string) : bool :=
  match v, e with
  | EmptyString, EmptyString => true
  | String a v', String b e' =>
      bool_decide (tolower a = tolower b) && case_variant v' e'
  | _, _ => false
  end.

End Chars.

(** ** The category table and the extension index *)

(** [FOLDER_MAP], as initialised in the source. *)
Definition FOLDER_MAP : list (string * list string) :=
  [ ("Programs", [".exe"; ".msi"; ".bat"; ".sh"; ".apk"; ".app"; ".jar"; ".cmd"; ".gadget"; ".wsf"; ".deb"; ".rpm"; ".bin"; ".com"; ".vbs"; ".ps1"]);
    ("Documents", [".pdf"; ".doc"; ".docx"; ".txt"; ".ppt"; ".pptx"; ".xls"; ".xlsx"; ".odt"; ".csv"; ".rtf"; ".tex"; ".epub"; ".md"; ".log"; ".json"; ".xml"; ".yaml"; ".yml"; ".ini"]);
    ("Compressed", [".zip"; ".rar"; ".7z"; ".tar"; ".gz"; ".bz2"; ".xz"; ".iso"; ".cab"; ".arj"; ".lzh"; ".ace"; ".uue"; ".tar.gz"; ".tar.bz2"; ".tar.xz"]);
    ("Music", [".mp3"; ".wav"; ".aac"; ".flac"; ".ogg"; ".m4a"; ".wma"; ".alac"; ".amr"; ".aiff"; ".opus"; ".mid"; ".midi"]);
    ("Video", [".mp4"; ".mkv"; ".avi"; ".mov"; ".wmv"; ".flv"; ".webm"; ".mpeg"; ".mpg"; ".m4v"; ".3gp"; ".3g2"; ".vob"; ".ogv"; ".rm"; ".rmvb"; ".ts"; ".m2ts"]);
    ("Images", [".jpg"; ".jpeg"; ".png"; ".gif"; ".bmp"; ".tiff"; ".tif"; ".webp"; ".svg"; ".ico"; ".heic"; ".raw"; ".psd"; ".ai"; ".indd"; ".eps"; ".jfif"; ".apng"; ".avif"; ".cr2"; ".nef"; ".orf"; ".sr2"]);
    ("Others", []) ].

(** The keys of [FOLDER_MAP]: the names of the category folders. *)
Definition folder_names (fm : list (string * list string)) : list string := fm.*1.

(** The inner loop of [build_extension_map]:
    [g_extension_to_folder_map[ext] = folder] for each [ext]. *)
Definition add_extensions (folder : string) (extensions : list string)
    (g : gmap string string) : gmap string string :=
  foldl (λ acc ext, <[ext := folder]> acc) g extensions.

(** [build_extension_map], over an enumeration [fm] of the table and the
    current value [g] of the global [g_extension_to_folder_map]. *)
Definition build_extension_map_from (fm : list (string * list string))
    (g : gmap string string) : gmap string string :=
  foldl (λ acc '(folder, extensions), add_extensions folder extensions acc) g fm.

Definition build_extension_map (g : gmap string string) : gmap string string :=
  build_extension_map_from FOLDER_MAP g.

(** The global after [main] has called [build_extension_map]: it starts
    out empty (static initialisation). *)
Definition g_extension_to_folder_map : gmap string string :=
  build_extension_map ∅.

(** [get_target_folder]; the global it reads is the argument [g]. *)
Definition get_target_folder (g : gmap string string) (file_ext : string) : string :=
  let lower_ext := Chars.lower file_ext in
  match g !! lower_ext with
  | Some folder => folder
  | None => "Others"
  end.

(** [classify] of the specification: the lookup once the index is built. *)
Definition classify (e : string) : string :=
  get_target_folder g_extension_to_folder_map e.

(** ** File names *)

(** The suffix of [s] that starts at its rightmost period, if it has one
    ([s.rfind('.')] followed by [substr]). *)
Fixpoint from_last_dot (s : string) : option string :=
  match s with
  | EmptyString => None
  | String c r =>
      match from_last_dot r with
      | Some t => Some t
      | None => if decide (c = "."%char) then Some s else None
      end
  end.

(** [fs::path::extension] of a file name: the part from the rightmost
    period on; the names dot and dot-dot have none, and a period that is
    the first character of the name does not start an extension. *)
Definition extension (filename : string) : string :=
  match filename with
  | EmptyString => ""
  | String _ r =>
      if decide (filename = "..") then ""
      else match from_last_dot r with
           | Some t => t
           | None => ""
           end
  end.

(** Whether a character occurs in a string ([find_first_not_of] and
    [find_last_not_of] test membership in their argument). *)
Fixpoint occurs (c : ascii) (set : string) : bool :=
  match set with
  | EmptyString => false
  | String d r => bool_decide (c = d) || occurs c r
  end.

(** Whether a name contains a period at all. *)
Definition has_dot (s : string) : bool := occurs "."%char s.

(** [path.empty()] / [string.empty()]. *)
Definition empty (s : string) : bool :=
  match s with EmptyString => true | _ => false end.

Fixpoint ends_with_separator (p : string) : bool :=
  match p with
  | EmptyString => false
  | String c EmptyString => bool_decide (c = "/"%char)
  | String _ r => ends_with_separator r
  end.

(** [p / name] for a relative, non-empty [name] (POSIX separator): a
    separator is added unless [p] is empty or already ends with one. *)
Definition path_append (p name : string) : string :=
  if empty p || ends_with_separator p then p +:+ name else p +:+ "/" +:+ name.

(** ** Argument trimming *)

Definition whitespace : string :=
  String " "%char (String "009"%char (String "010"%char (String "013"%char
    (String "012"%char (String "011"%char EmptyString))))).

Definition quotes : string :=
  String "034"%char (String "'"%char EmptyString).

(** [str.find_first_not_of(set)]; [None] is [npos]. *)
Fixpoint find_first_not_of (set str : string) : option nat :=
  match str with
  | EmptyString => None
  | String c r =>
      if occurs c set then S <$> find_first_not_of set r else Some 0
  end.

(** [str.find_last_not_of(set)]; [None] is [npos]. *)
Fixpoint find_last_not_of (set str : string) : option nat :=
  match str with
  | EmptyString => None
  | String c r =>
      match find_last_not_of set r with
      | Some i => Some (S i)
      | None => if occurs c set then None else Some 0
      end
  end.

(** [str.substr(pos, count)] for [pos <= size]: the count is clamped to
    what is left of the string. *)
Definition substr (str : string) (pos count : nat) : string :=
  String.substring pos count str.

(** One stripping pass of [trim_path]: [None] is the early [return ""].
    When [first] is found [last] is found too; the [None] branch for
    [last] stands for the count [npos - first + 1], which is clamped. *)
Definition strip_pass (set str : string) : option string :=
  match find_first_not_of set str with
  | None => None
  | Some first =>
      match find_last_not_of set str with
      | Some last => Some (substr str first (last - first + 1))
      | None => Some (substr str first (String.length str))
      end
  end.

(** [trim_path]. *)
Definition trim_path (str : string) : string :=
  match strip_pass whitespace str with
  | None => ""
  | Some str1 =>
      match strip_pass quotes str1 with
      | None => ""
      | Some str2 => str2
      end
  end.

(** The specification's wording of the two passes: remove the characters
    of [set] from the front, then from the back. *)
Fixpoint drop_leading (set s : string) : string :=
  match s with
  | EmptyString => EmptyString
  | String c r => if occurs c set then drop_leading set r else s
  end.

Fixpoint drop_trailing (set s : string) : string :=
  match s with
  | EmptyString => EmptyString
  | String c r =>
      match drop_trailing set r with
      | EmptyString => if occurs c set then EmptyString else String c EmptyString
      | t => String c t
      end
  end.

Definition strip (set s : string) : string := drop_trailing set (drop_leading set s).

(** [trim] as the specification words it: whitespace first, then quotes. *)
Definition trim_spec (raw : string) : string := strip quotes (strip whitespace raw).

(** Every character of [s] is one of [set]. *)
Fixpoint all_in (set s : string) : bool :=
  match s with
  | EmptyString => true
  | String c r => occurs c set && all_in set r
  end.

(** ** The directory and the operating system *)

(** What a directory entry can be.  The program distinguishes regular
    files, directories and everything else. *)
#[warnings="-register-all"]
Inductive node :=
  | File (data : string)
  | Dir (children : gmap string node)
  | Special.

(** What the operating system refuses or fails to do for reasons that do
    not depend on the directory contents; each field gives the text of
    the exception raised, if one is.
    - [mkdir_fault name]: creating the sub-directory [name].
    - [rename_fault name folder]: the [try] block of the file [name] when
      nothing is at its target in [folder]; the [filesystem_error] comes
      from the renaming (or already from the existence test: the block
      ends the same way).
    - [stat_fault name folder]: the existence test of the [try] block of
      the file [name] when something is at its target in [folder].
    - [open_fault]: opening the directory for the scan
      ([fs::directory_iterator(base_path)]).
    - [scan_fault name]: reaching and examining the entry [name] in the
      loop head (advancing the iterator, [entry.is_regular_file()],
      [fs::weakly_canonical(entry.path())]), outside the [try] block.
    - [end_fault]: advancing the iterator past the last entry. *)
Record faults := {
  mkdir_fault : string → option string;
  rename_fault : string → string → option string;
  stat_fault : string → string → option string;
  open_fault : option string;
  scan_fault : string → option string;
  end_fault : option string
}.

(** The program's console lines, one constructor per output statement. *)
Inductive event :=
  | Help
  | NotExist (path : string)
  | NotDirectory (path : string)
  | Organizing (path : string)
  | Skipping (file folder : string)
  | ErrorMoving (file what : string)
  | Complete
  | Unexpected (what : string).

Inductive stream := Stdout | Stderr.

(** Where the output of each statement goes, and its lines. *)
Definition render (e : event) : stream * list string :=
  match e with
  | Help =>
      (Stdout,
       ["Usage: organize <folder_path> OR organize -c";
        "Organizes files in the specified folder into subdirectories based on file type.";
        "";
        "Options/Flags:";
        "  --help, -h, -H   :   Show this help message.";
        "  --current, -c, -C:   Organize files in the current working directory."])
  | NotExist p =>
      (Stderr, ["Error: The specified path does not exist: '" +:+ p +:+ "'"])
  | NotDirectory p =>
      (Stderr, ["Error: The specified path is not a directory: '" +:+ p +:+ "'"])
  | Organizing p => (Stdout, ["Organizing files in '" +:+ p +:+ "'..."])
  | Skipping f folder =>
      (Stdout, ["Skipping '" +:+ f +:+ "': file already exists in '"
                +:+ folder +:+ "' folder."])
  | ErrorMoving f what => (Stderr, ["Error moving file '" +:+ f +:+ "': " +:+ what])
  | Complete => (Stdout, ["File organization complete."])
  | Unexpected what => (Stderr, ["An unexpected error occurred: " +:+ what])
  end.

(** The file a per-file line is about. *)
Definition subject (e : event) : option string :=
  match e with
  | Skipping f _ | ErrorMoving f _ => Some f
  | _ => None
  end.

(** How a call ended. *)
Inductive outcome :=
  | Returned
  | Thrown (what : string).

(** [fs::exists(base / name)]. *)
Definition exists_entry (root : gmap string node) (name : string) : bool :=
  bool_decide (is_Some (root !! name)).

(** [fs::exists(base / folder / name)]: a path through something that is
    not a directory names nothing. *)
Definition exists_in (root : gmap string node) (folder name : string) : bool :=
  match root !! folder with
  | Some (Dir children) => bool_decide (is_Some (children !! name))
  | _ => false
  end.

(** [fs::exists(target_path)] as the [try] block of a file calls it: the
    answer, or the text of the [filesystem_error] it raises.  A failure
    of the test when nothing is at the target is accounted for with the
    renaming, in [rename_fault]: either way the block ends in the
    [catch], with the directory as it was. *)
Definition fs_exists (os : faults) (root : gmap string node) (folder name : string)
    : string + bool :=
  if exists_in root folder name then
    match stat_fault os name folder with
    | Some what => inl what
    | None => inr true
    end
  else inr false.

(** [entry.is_regular_file()]. *)
Definition is_regular_file (root : gmap string node) (name : string) : bool :=
  match root !! name with
  | Some (File _) => true
  | _ => false
  end.

(** [fs::create_directory(base / name)]: an existing directory is left
    alone without error, any other existing entry is an error. *)
Definition create_directory (os : faults) (root : gmap string node) (name : string)
    : string + gmap string node :=
  match root !! name with
  | Some (Dir _) => inr root
  | Some _ => inl "cannot create directory: File exists"
  | None =>
      match mkdir_fault os name with
      | Some what => inl what
      | None => inr (<[name := Dir ∅]> root)
      end
  end.

(** [fs::rename(base / name, base / folder / name)], POSIX [rename]: the
    entry leaves [base] and appears in the folder, replacing a
    non-directory of the same name there. *)
Definition rename (os : faults) (root : gmap string node) (name folder : string)
    : string + gmap string node :=
  match rename_fault os name folder with
  | Some what => inl what
  | None =>
      match root !! name, root !! folder with
      | None, _ | _, None => inl "cannot rename: No such file or directory"
      | Some n, Some (Dir children) =>
          if decide (name = folder) then inl "cannot rename: Invalid argument"
          else
            let root' := <[folder := Dir (<[name := n]> children)]> (delete name root) in
            match children !! name, n with
            | Some (Dir sub), Dir _ =>
                if decide (sub = ∅) then inr root'
                else inl "cannot rename: Directory not empty"
            | Some (Dir _), _ => inl "cannot rename: Is a directory"
            | Some _, Dir _ => inl "cannot rename: Not a directory"
            | _, _ => inr root'
            end
      | Some _, Some _ => inl "cannot rename: Not a directory"
      end
  end.

(** ** The program *)

(** The loop of [ensure_folders] over the folder names still to visit. *)
Fixpoint ensure_folders_loop (os : faults) (base_path : string)
    (folders : list string) (root : gmap string node)
    : gmap string node * outcome :=
  match folders with
  | [] => (root, Returned)
  | folder_name :: rest =>
      let folder_path := path_append base_path folder_name in
      if negb (exists_entry root folder_name) then
        match create_directory os root folder_name with
        | inr root' => ensure_folders_loop os base_path rest root'
        | inl what =>
            (root, Thrown ("Error creating directory " +:+ folder_path +:+ ": " +:+ what))
        end
      else ensure_folders_loop os base_path rest root
  end.

(** [ensure_folders]. *)
Definition ensure_folders (os : faults) (base_path : string)
    (root : gmap string node) : gmap string node * outcome :=
  ensure_folders_loop os base_path (folder_names FOLDER_MAP) root.

(** The body of the loop of [organize_files] for one directory entry. *)
Definition organize_entry (os : faults) (g : gmap string string)
    (base_path self_path : string)
    (st : gmap string node * list event) (name : string)
    : gmap string node * list event :=
  let '(root, out) := st in
  let item_path := path_append base_path name in
  if is_regular_file root name && negb (bool_decide (item_path = self_path)) then
    let ext := extension name in
    if empty ext then st
    else
      let folder := get_target_folder g ext in
      match fs_exists os root folder name with
      | inl what => (root, out ++ [ErrorMoving name what])
      | inr false =>
          match rename os root name folder with
          | inr root' => (root', out)
          | inl what => (root, out ++ [ErrorMoving name what])
          end
      | inr true => (root, out ++ [Skipping name folder])
      end
  else st.

(** The loop bodies of [organize_files] in sequence, for the names of
    entries that are all reached and examined without an exception. *)
Definition organize_entries (os : faults) (g : gmap string string)
    (base_path self_path : string) (names : list string)
    (st : gmap string node * list event) : gmap string node * list event :=
  foldl (organize_entry os g base_path self_path) st names.

(** The loop of [organize_files] over the names the iterator yields: an
    exception of the loop head, raised outside the [try] block, leaves
    the loop and the function. *)
Fixpoint organize_scan (os : faults) (g : gmap string string)
    (base_path self_path : string) (names : list string)
    (st : gmap string node * list event)
    : gmap string node * list event * outcome :=
  match names with
  | [] =>
      match end_fault os with
      | Some what => (st, Thrown what)
      | None => (st, Returned)
      end
  | name :: rest =>
      match scan_fault os name with
      | Some what => (st, Thrown what)
      | None =>
          organize_scan os g base_path self_path rest
            (organize_entry os g base_path self_path st name)
      end
  end.

(** [organize_files].  The iterator yields the entries the directory has
    once the folders are provisioned, each once, in an order the program
    does not choose. *)
Definition organize_files (os : faults) (g : gmap string string)
    (base_path self_path : string) (root : gmap string node)
    : gmap string node * list event * outcome :=
  match ensure_folders os base_path root with
  | (root1, Thrown what) => (root1, [], Thrown what)
  | (root1, Returned) =>
      match open_fault os with
      | Some what => (root1, [], Thrown what)
      | None =>
          organize_scan os g base_path self_path (map_to_list root1).*1 (root1, [])
      end
  end.

(** What [main] finds at a path.
    - [StatError what]: an exception before the [try] block, raised by
      [fs::current_path()], [fs::exists] or [fs::is_directory]; nothing
      catches it.
    - [NotFound], [NonDirectory]: the two tests answer, and one fails.
    - [Unresolved what]: the path is a directory, and a resolution in the
      [try] block ([fs::canonical] of it, [fs::weakly_canonical] of
      [argv[0]]) raises an exception.
    - [Directory canonical root]: the path is a directory, the
      resolutions succeed, [canonical] is its canonical path and [root]
      its contents. *)
Inductive file_status :=
  | NotFound
  | NonDirectory
  | Directory (canonical : string) (root : gmap string node)
  | StatError (what : string)
  | Unresolved (what : string).

(** The status a shell reports for a program ended by [std::terminate]
    (the abort signal): what becomes of an exception that leaves
    [main]. *)
Definition aborted : Z := 134.

(** The surroundings of one run, with its [argv[0]]: [status] answers
    for the path [main] is given, [weakly_canonical] for [argv[0]] when
    its resolution succeeds. *)
Record world := {
  os_faults : faults;
  current_path : string;
  status : string → file_status;
  weakly_canonical : string → string
}.

(** [show_help]. *)
Definition show_help : list event := [Help].

(** The tests [main] makes on its first argument. *)
Definition help_flag (arg1 : string) : bool :=
  bool_decide (arg1 = "--help" ∨ arg1 = "-h" ∨ arg1 = "-H").

Definition current_flag (arg1 : string) : bool :=
  bool_decide (arg1 = "-c" ∨ arg1 = "--current" ∨ arg1 = "-C").

(** The folder [main] works on, from its first argument. *)
Definition folder_path_of (w : world) (arg1 : string) : string :=
  if current_flag arg1 then current_path w else trim_path arg1.

(** [main]: exit code (or [aborted]), console lines, and the directory
    it worked on as it is left (if it reached one). *)
Definition main (w : world) (argv : list string)
    : Z * list event * option (gmap string node) :=
  let g := build_extension_map ∅ in
  match argv with
  | argv0 :: arg1 :: _ =>
      if help_flag arg1 then (0%Z, show_help, None)
      else
        let folder_path := folder_path_of w arg1 in
        match status w folder_path with
        | StatError _ => (aborted, [], None)
        | NotFound => (1%Z, [NotExist folder_path], None)
        | NonDirectory => (1%Z, [NotDirectory folder_path], None)
        | Unresolved what => (1%Z, [Unexpected what], None)
        | Directory canonical root =>
            let self_path := weakly_canonical w argv0 in
            match organize_files (os_faults w) g canonical self_path root with
            | (root', out, Returned) =>
                (0%Z, [Organizing canonical] ++ out ++ [Complete], Some root')
            | (root', out, Thrown what) =>
                (1%Z, [Organizing canonical] ++ out ++ [Unexpected what], Some root')
            end
        end
  | _ => (0%Z, show_help, None)
  end.

(** ** Auxiliary notions for the statements *)

(** The folder an entry name is destined for. *)
Definition target_folder (g : gmap string string) (name : string) : string :=
  get_target_folder g (extension name).

(** [base / folder] is a directory. *)
Definition is_directory (root : gmap string node) (folder : string) : bool :=
  match root !! folder with
  | Some (Dir _) => true
  | _ => false
  end.

(** The directory once the regular file [name], of contents [data], has
    left it for [folder], whose entries were [children]. *)
Definition moved (name folder data : string) (children : gmap string node)
    (root : gmap string node) : gmap string node :=
  <[folder := Dir (<[name := File data]> children)]> (delete name root).

(** The entries [organize_files] gets past its two skips: a regular file
    that is not the program itself and has an extension. *)
Definition candidate (base_path self_path : string)
    (root : gmap string node) (name : string) : bool :=
  is_regular_file root name
  && negb (bool_decide (path_append base_path name = self_path))
  && negb (empty (extension name)).

(** The entries that the loop body would rename in the directory [root]. *)
Definition movable (os : faults) (g : gmap string string)
    (base_path self_path : string) (root : gmap string node) (name : string)
    : bool :=
  candidate base_path self_path root name
  && negb (exists_in root (target_folder g name) name)
  && is_directory root (target_folder g name)
  && bool_decide (rename_fault os name (target_folder g name) = None).

(** The state of a collision: the regular file [name] is in the
    directory, and [x] is already at its name in its folder. *)
Definition collides (g : gmap string string) (name data : string) (x : node)
    (root : gmap string node) : Prop :=
  root !! name = Some (File data) ∧
  ∃ children, root !! target_folder g name = Some (Dir children) ∧
              children !! name = Some x.

(** The line the loop body prints for the entry [name] when something
    is at its name in [folder]: the notice, or the error of the existence
    test when the system fails it. *)
Definition collision_line (os : faults) (name folder : string) : event :=
  match stat_fault os name folder with
  | Some what => ErrorMoving name what
  | None => Skipping name folder
  end.

(** The regular file [name] waits in the directory, and its folder is a
    directory with nothing at its name. *)
Definition awaits (g : gmap string string) (name data : string)
    (root : gmap string node) : Prop :=
  root !! name = Some (File data) ∧
  ∃ children, root !! target_folder g name = Some (Dir children) ∧
              children !! name = None.

(** The file has left the directory and is in its folder. *)
Definition arrived (g : gmap string string) (name data : string)
    (root : gmap string node) : Prop :=
  root !! name = None ∧
  ∃ children, root !! target_folder g name = Some (Dir children) ∧
              children !! name = Some (File data).

(** The lines the loop body prints for the entry [name] when the
    directory is [root]. *)
Definition notice_for (os : faults) (g : gmap string string)
    (base_path self_path : string) (root : gmap string node) (name : string)
    : list event :=
  (organize_entry os g base_path self_path (root, []) name).2.

(** The operating system refuses nothing. *)
Definition no_faults : faults :=
  {| mkdir_fault := λ _, None; rename_fault := λ _ _, None;
     stat_fault := λ _ _, None; open_fault := None;
     scan_fault := λ _, None; end_fault := None |}.

(** [organize] of the specification: [organize_files] as [main] calls it,
    with the index built. *)
Definition organize (os : faults) (base_path self_path : string)
    (root : gmap string node) : gmap string node * list event * outcome :=
  organize_files os g_extension_to_folder_map base_path self_path root.

(** No extension is listed by two categories of [fm]. *)
Definition listed_once (fm : list (string * list string)) : Prop :=
  Forall (λ p1 : string * list string,
    Forall (λ p2 : string * list string,
      Forall (λ e, e ∈ p2.2 → p1.1 = p2.1) p1.2) fm) fm.

(** The first, respectively last, character of [s] is one of [set]. *)
Definition starts_with_any (set s : string) : bool :=
  match s with
  | EmptyString => false
  | String c _ => occurs c set
  end.

Fixpoint ends_with_any (set s : string) : bool :=
  match s with
  | EmptyString => false
  | String c EmptyString => occurs c set
  | String _ r => ends_with_any set r
  end.

(** An extension that some category of the table lists. *)
Definition in_category_table (e : string) : Prop :=
  Exists (λ entry : string * list string, e ∈ entry.2) FOLDER_MAP.

(** * Properties *)

(** ** Case folding *)

Section case_folding.
Import Chars.

Lemma tolower_toupper c : tolower (toupper c) = tolower c.
Proof.
  destruct c as [b0 b1 b2 b3 b4 b5 b6 b7].
  destruct b0, b1, b2, b3, b4, b5, b6, b7; reflexivity.
Qed.

Lemma tolower_idem c : tolower (tolower c) = tolower c.
Proof.
  destruct c as [b0 b1 b2 b3 b4 b5 b6 b7].
  destruct b0, b1, b2, b3, b4, b5, b6, b7; reflexivity.
Qed.

Lemma lower_upper s : lower (upper s) = lower s.
Proof.
  induction s as [|c r IH]; simpl; [done|].
  by rewrite tolower_toupper, IH.
Qed.

Lemma lower_idem s : lower (lower s) = lower s.
Proof.
  induction s as [|c r IH]; simpl; [done|].
  by rewrite tolower_idem, IH.
Qed.

Lemma case_variant_lower v e : case_variant v e = true ↔ lower v = lower e.
Proof.
  revert e; induction v as [|a v IH]; intros [|b e]; simpl; try done.
  rewrite andb_true_iff, bool_decide_eq_true, IH. split.
  - by intros [-> ->].
  - by intros [=].
Qed.

Lemma case_variant_upper e : case_variant (upper e) e = true.
Proof. apply case_variant_lower, lower_upper. Qed.

(** The lookup only sees the folded spelling, whatever the index holds. *)
Lemma get_target_folder_fold g v e :
  lower v = lower e → get_target_folder g v = get_target_folder g e.
Proof. unfold get_target_folder. by intros ->. Qed.

End case_folding.

(** ** The extension index *)

Lemma add_extensions_lookup folder exts g k :
  add_extensions folder exts g !! k
  = if decide (k ∈ exts) then Some folder else g !! k.
Proof.
  unfold add_extensions. revert g.
  induction exts as [|x exts IH]; intros g.
  - rewrite decide_False; [done | apply not_elem_of_nil].
  - cbn [foldl]. rewrite IH. destruct (decide (k ∈ exts)) as [Hin|Hin].
    + rewrite decide_True; [done | by right].
    + destruct (decide (k = x)) as [->|Hne].
      * rewrite lookup_insert_eq, decide_True; [done | by left].
      * rewrite lookup_insert_ne by done.
        rewrite decide_False; [done|].
        intros [?|?]%elem_of_cons; done.
Qed.

(** Whatever the index maps an extension to is either what it mapped
    before the build, or a folder of the table that lists the extension. *)
Lemma build_extension_map_from_sound fm g k v :
  build_extension_map_from fm g !! k = Some v →
  g !! k = Some v ∨ ∃ exts, (v, exts) ∈ fm ∧ k ∈ exts.
Proof.
  unfold build_extension_map_from. revert g.
  induction fm as [|[folder exts] fm IH]; intros g; simpl; [by left|].
  intros [Hg | (exts' & Hin & Hk)]%IH.
  - rewrite add_extensions_lookup in Hg. case_decide as Hd.
    + injection Hg as <-. right. exists exts. split; [by left | done].
    + by left.
  - right. exists exts'. split; [by right | done].
Qed.

(** An extension that no category lists is not a key of the built index. *)
Lemma index_lookup_None k :
  ¬ in_category_table k → g_extension_to_folder_map !! k = None.
Proof.
  intros Hnot. destruct (g_extension_to_folder_map !! k) as [v|] eqn:Hk; [|done].
  apply build_extension_map_from_sound in Hk as [Hk | (exts & Hin & Hk)];
    [by rewrite lookup_empty in Hk|].
  destruct Hnot. apply Exists_exists. by exists (v, exts).
Qed.

(** The table of the source: every listed extension is spelled in lower
    case and is indexed under the category that lists it (no extension is
    listed twice, so the order in which the table is enumerated is
    immaterial). *)
Lemma index_complete :
  Forall (λ entry : string * list string,
    Forall (λ e, Chars.lower e = e ∧
                 g_extension_to_folder_map !! e = Some entry.1) entry.2)
    FOLDER_MAP.
Proof.
  apply (bool_decide_unpack _). vm_compute. exact I.
Qed.

Lemma index_lookup_listed folder exts e :
  (folder, exts) ∈ FOLDER_MAP → e ∈ exts →
  Chars.lower e = e ∧ g_extension_to_folder_map !! e = Some folder.
Proof.
  intros Hin He.
  pose proof index_complete as Hall.
  rewrite Forall_forall in Hall. specialize (Hall _ Hin). simpl in Hall.
  rewrite Forall_forall in Hall. by apply Hall.
Qed.

(** Every answer of the classifier is the name of a category folder. *)
Lemma get_target_folder_is_folder e :
  classify e ∈ folder_names FOLDER_MAP.
Proof.
  unfold classify, get_target_folder.
  destruct (g_extension_to_folder_map !! Chars.lower e) as [v|] eqn:Hk.
  - apply build_extension_map_from_sound in Hk as [Hk | (exts & Hin & _)];
      [by rewrite lookup_empty in Hk|].
    unfold folder_names. apply list_elem_of_fmap. by exists (v, exts).
  - unfold folder_names. apply list_elem_of_fmap. exists ("Others", []).
    split; [done|]. repeat (first [by left | right]).
Qed.

(** *** The order in which the table is enumerated

    [FOLDER_MAP] is an unordered map: the program does not choose the
    order in which [build_extension_map] visits it.  No order changes the
    index. *)

Lemma listed_once_spec fm :
  listed_once fm ↔
  ∀ v1 e1 v2 e2 k, (v1, e1) ∈ fm → (v2, e2) ∈ fm → k ∈ e1 → k ∈ e2 → v1 = v2.
Proof.
  unfold listed_once. split.
  - intros H v1 e1 v2 e2 k H1 H2 Hk1 Hk2.
    rewrite Forall_forall in H. specialize (H _ H1).
    rewrite Forall_forall in H. specialize (H _ H2).
    rewrite Forall_forall in H. by apply (H k).
  - intros H. apply Forall_forall. intros [v1 e1] H1.
    apply Forall_forall. intros [v2 e2] H2.
    apply Forall_forall. intros k Hk1 Hk2. by apply (H v1 e1 v2 e2 k).
Qed.

Lemma FOLDER_MAP_listed_once : listed_once FOLDER_MAP.
Proof. apply (bool_decide_unpack _). vm_compute. exact I. Qed.

Lemma build_extension_map_from_complete fm g k v :
  (∀ v' e', (v', e') ∈ fm → k ∈ e' → v' = v) →
  g !! k = Some v ∨ (∃ exts, (v, exts) ∈ fm ∧ k ∈ exts) →
  build_extension_map_from fm g !! k = Some v.
Proof.
  unfold build_extension_map_from. revert g.
  induction fm as [|[folder exts] fm IH]; intros g Huniq Hsrc; simpl.
  - destruct Hsrc as [?|(? & Hin & _)]; [done|]. by apply elem_of_nil in Hin.
  - apply IH.
    + intros v' e' Hin. apply Huniq. by right.
    + rewrite add_extensions_lookup.
      destruct (decide (k ∈ exts)) as [Hk|Hk].
      * left. f_equal. apply (Huniq folder exts); [by left|done].
      * destruct Hsrc as [?|(e' & Hin & Hk')]; [by left|].
        apply elem_of_cons in Hin as [[= -> ->]|Hin]; [done|].
        right. by exists e'.
Qed.

(** Whatever the order of enumeration, the index is the same. *)
Lemma build_extension_map_order fm :
  fm ≡ₚ FOLDER_MAP →
  build_extension_map_from fm ∅ = g_extension_to_folder_map.
Proof.
  intros Hperm. pose proof FOLDER_MAP_listed_once as Huniq.
  rewrite listed_once_spec in Huniq.
  assert (Hboth : ∀ fm1 fm2 k v,
             fm1 ≡ₚ FOLDER_MAP → fm2 ≡ₚ FOLDER_MAP →
             build_extension_map_from fm1 ∅ !! k = Some v →
             build_extension_map_from fm2 ∅ !! k = Some v).
  { intros fm1 fm2 k v H1 H2 Hk.
    apply build_extension_map_from_sound in Hk as [Hk|(exts & Hin & Hk)];
      [by rewrite lookup_empty in Hk|].
    apply build_extension_map_from_complete.
    - intros v' e' Hin' Hk'. rewrite H2 in Hin'. rewrite H1 in Hin.
      by apply (Huniq v' e' v exts k).
    - right. exists exts. split; [|done]. rewrite H2. by rewrite <- H1. }
  apply map_eq. intros k. unfold g_extension_to_folder_map, build_extension_map.
  destruct (build_extension_map_from fm ∅ !! k) as [v|] eqn:Hk.
  - symmetry. by apply (Hboth fm FOLDER_MAP).
  - destruct (build_extension_map_from FOLDER_MAP ∅ !! k) as [v|] eqn:Hk'; [|done].
    apply (Hboth FOLDER_MAP fm) in Hk'; [congruence|done..].
Qed.

(** C5: for an extension [e] listed by a category of the table, [e]
    itself, its upper-case spelling and every mixed-case spelling [v] of
    it are all classified alike, namely into the category that lists [e]:
    the classifier folds the case of its input before the lookup. *)
Theorem classify_case_insensitive folder exts e v :
  (folder, exts) ∈ FOLDER_MAP → e ∈ exts →
  Chars.case_variant v e = true →
  classify e = folder ∧
  classify (Chars.upper e) = classify e ∧
  classify v = classify e.
Proof.
  intros Hin He Hv.
  destruct (index_lookup_listed _ _ _ Hin He) as [Hlow Hidx].
  split; [|split].
  - unfold classify, get_target_folder. by rewrite Hlow, Hidx.
  - apply get_target_folder_fold, lower_upper.
  - by apply get_target_folder_fold, case_variant_lower.
Qed.

Lemma classify_case_insensitive_witness :
  classify ".txt" = "Documents" ∧
  classify (Chars.upper ".txt") = classify ".txt" ∧
  classify ".tXt" = classify ".txt".
Proof.
  apply (classify_case_insensitive "Documents"
           [".pdf"; ".doc"; ".docx"; ".txt"; ".ppt"; ".pptx"; ".xls"; ".xlsx";
            ".odt"; ".csv"; ".rtf"; ".tex"; ".epub"; ".md"; ".log"; ".json";
            ".xml"; ".yaml"; ".yml"; ".ini"] ".txt" ".tXt").
  - apply (bool_decide_unpack _). vm_compute. exact I.
  - apply (bool_decide_unpack _). vm_compute. exact I.
  - reflexivity.
Defined.

(** C6: the classifier is total and answers a category name for every
    string; for a string whose case-folded spelling no category lists,
    the answer is the default category "Others". *)
Theorem classify_total_default e :
  classify e ∈ folder_names FOLDER_MAP ∧
  (¬ in_category_table (Chars.lower e) → classify e = "Others").
Proof.
  split; [apply get_target_folder_is_folder|].
  intros Hnot. unfold classify, get_target_folder.
  by rewrite (index_lookup_None _ Hnot).
Qed.

Lemma classify_total_default_witness :
  ¬ in_category_table (Chars.lower ".UnknownExt") ∧
  classify ".UnknownExt" = "Others".
Proof.
  assert (H : ¬ in_category_table (Chars.lower ".UnknownExt")).
  { apply (bool_decide_unpack _). vm_compute. exact I. }
  split; [exact H|].
  exact (proj2 (classify_total_default ".UnknownExt") H).
Defined.

(** ** File names and extensions *)

Lemma from_last_dot_no_dot s : has_dot s = false → from_last_dot s = None.
Proof.
  unfold has_dot. induction s as [|c r IH]; simpl; [done|].
  intros [Hc Hr]%orb_false_iff. rewrite (IH Hr).
  apply bool_decide_eq_false in Hc. by rewrite decide_False.
Qed.

(** A name without any period has no extension. *)
Lemma extension_no_dot name : has_dot name = false → extension name = "".
Proof.
  destruct name as [|c r]; [done|]. unfold has_dot; simpl.
  intros [_ Hr]%orb_false_iff. rewrite (from_last_dot_no_dot _ Hr).
  by case_decide.
Qed.

(** A period that starts the name does not start an extension. *)
Lemma extension_leading_dot rest :
  has_dot rest = false → extension (String "."%char rest) = "".
Proof.
  intros Hr. unfold extension. rewrite (from_last_dot_no_dot _ Hr).
  by case_decide.
Qed.

(** ** Argument trimming *)

Section trimming.
Variable set : string.

Lemma find_first_not_of_None s :
  find_first_not_of set s = None ↔ all_in set s = true.
Proof.
  induction s as [|c r IH]; simpl; [done|].
  destruct (occurs c set); simpl; [|done].
  rewrite <- IH. by destruct (find_first_not_of set r).
Qed.

Lemma find_last_not_of_None s :
  find_last_not_of set s = None ↔ all_in set s = true.
Proof.
  induction s as [|c r IH]; simpl; [done|].
  destruct (find_last_not_of set r) as [i|].
  - split; [done|]. intros [_ Hr]%andb_true_iff. by apply IH in Hr.
  - destruct (occurs c set); simpl; [|done]. by rewrite <- IH.
Qed.

Lemma drop_trailing_all s : all_in set s = true → drop_trailing set s = "".
Proof.
  induction s as [|c r IH]; simpl; [done|].
  intros [Hc Hr]%andb_true_iff. by rewrite (IH Hr), Hc.
Qed.

Lemma drop_leading_all s : all_in set s = true → drop_leading set s = "".
Proof.
  induction s as [|c r IH]; simpl; [done|].
  intros [Hc Hr]%andb_true_iff. by rewrite Hc, (IH Hr).
Qed.

(** Cutting after the last character outside [set] is dropping the
    trailing characters of [set]; something is left. *)
Lemma substr_to_last s last :
  find_last_not_of set s = Some last →
  substr s 0 (last + 1) = drop_trailing set s ∧ drop_trailing set s ≠ "".
Proof.
  unfold substr. revert last.
  induction s as [|c r IH]; intros last; simpl; [done|].
  destruct (find_last_not_of set r) as [i|] eqn:Hr.
  - intros [= <-]. destruct (IH i eq_refl) as [Heq Hne]. simpl.
    rewrite Heq. by destruct (drop_trailing set r).
  - apply find_last_not_of_None, drop_trailing_all in Hr. rewrite Hr.
    destruct (occurs c set); [done|]. intros [= <-]. simpl.
    split; [|done]. by destruct r.
Qed.

Lemma strip_pass_skip c r :
  occurs c set = true → strip_pass set (String c r) = strip_pass set r.
Proof.
  intros Hc. unfold strip_pass; simpl. rewrite Hc.
  destruct (find_first_not_of set r) as [f|] eqn:Hf; simpl; [|done].
  destruct (find_last_not_of set r) as [l|] eqn:Hl; [done|].
  apply find_last_not_of_None, find_first_not_of_None in Hl. congruence.
Qed.

(** One pass of the source is one [strip] of the specification; the
    early return happens exactly on a string made of [set] only. *)
Lemma strip_pass_spec s :
  match strip_pass set s with
  | None => all_in set s = true ∧ strip set s = ""
  | Some t => all_in set s = false ∧ t = strip set s ∧ t ≠ ""
  end.
Proof.
  induction s as [|c r IH]; [done|].
  destruct (occurs c set) eqn:Hc.
  - rewrite (strip_pass_skip _ _ Hc). unfold strip in *. simpl. rewrite Hc.
    simpl. exact IH.
  - unfold strip_pass, strip. cbn [find_first_not_of drop_leading all_in].
    rewrite Hc. cbn [andb].
    destruct (find_last_not_of set (String c r)) as [last|] eqn:Hl.
    + apply substr_to_last in Hl as [Heq Hne].
      rewrite Nat.sub_0_r, Heq. done.
    + apply find_last_not_of_None in Hl. simpl in Hl. by rewrite Hc in Hl.
Qed.

Lemma strip_empty_iff s : strip set s = "" ↔ all_in set s = true.
Proof.
  pose proof (strip_pass_spec s) as H.
  destruct (strip_pass set s) as [t|].
  - destruct H as (Hf & -> & Hne). rewrite Hf. split; done.
  - destruct H as [-> ->]. done.
Qed.

End trimming.

(** The two passes of the source, in the order of the source, are the two
    strips of the specification. *)
Lemma trim_path_trim_spec raw : trim_path raw = trim_spec raw.
Proof.
  unfold trim_path, trim_spec.
  pose proof (strip_pass_spec whitespace raw) as H1.
  destruct (strip_pass whitespace raw) as [t|].
  - destruct H1 as (_ & -> & _).
    pose proof (strip_pass_spec quotes (strip whitespace raw)) as H2.
    destruct (strip_pass quotes (strip whitespace raw)) as [u|].
    + by destruct H2 as (_ & -> & _).
    + by destruct H2 as [_ ->].
  - destruct H1 as [_ ->]. done.
Qed.

(** C9, as amended: [trim_path] is a total, pure transform that strips
    leading and trailing whitespace and then leading and trailing quote
    characters; its result is the empty string exactly when nothing but
    quote characters is left once the whitespace is stripped (so in
    particular on an input of whitespace only, or of quotes wrapped in
    whitespace). *)
Theorem trim_path_correct raw :
  trim_path raw = strip quotes (strip whitespace raw) ∧
  (trim_path raw = "" ↔ all_in quotes (strip whitespace raw) = true).
Proof.
  split; [apply trim_path_trim_spec|].
  rewrite trim_path_trim_spec. apply strip_empty_iff.
Qed.

(** An input of whitespace only trims to the empty string. *)
Lemma trim_path_blank raw : all_in whitespace raw = true → trim_path raw = "".
Proof.
  intros H. rewrite trim_path_trim_spec. unfold trim_spec.
  apply strip_empty_iff in H. by rewrite H.
Qed.

(** C9 as stated fails: a blank between two double quotes consists of
    whitespace and quote characters only, and trims to the blank. *)
Lemma trim_path_quoted_blank :
  ¬ (∀ raw, all_in (whitespace +:+ quotes) raw = true → trim_path raw = "").
Proof.
  intros H.
  specialize (H (String "034"%char (String " "%char (String "034"%char "")))
                eq_refl).
  discriminate H.
Qed.

(** ** Folder provisioning *)

Section provisioning.
Context (os : faults) (base_path : string).

Lemma create_directory_new root name :
  root !! name = None →
  create_directory os root name
  = match mkdir_fault os name with
    | Some what => inl what
    | None => inr (<[name := Dir ∅]> root)
    end.
Proof. unfold create_directory. by intros ->. Qed.

Lemma exists_entry_false root name :
  exists_entry root name = false ↔ root !! name = None.
Proof.
  unfold exists_entry. rewrite bool_decide_eq_false.
  by rewrite <- eq_None_not_Some.
Qed.

Lemma exists_entry_true root name :
  exists_entry root name = true ↔ is_Some (root !! name).
Proof. unfold exists_entry. by rewrite bool_decide_eq_true. Qed.

(** One unfolding of the loop, by what is found at the folder's name. *)
Lemma ensure_folders_loop_cons folder rest root :
  ensure_folders_loop os base_path (folder :: rest) root
  = match root !! folder with
    | Some _ => ensure_folders_loop os base_path rest root
    | None =>
        match mkdir_fault os folder with
        | Some what =>
            (root, Thrown ("Error creating directory "
                           +:+ path_append base_path folder +:+ ": " +:+ what))
        | None => ensure_folders_loop os base_path rest (<[folder := Dir ∅]> root)
        end
    end.
Proof.
  cbn [ensure_folders_loop].
  destruct (root !! folder) as [x|] eqn:Hf.
  - by rewrite (proj2 (exists_entry_true root folder)).
  - rewrite (proj2 (exists_entry_false root folder)) by done. cbn [negb].
    rewrite create_directory_new by done.
    by destruct (mkdir_fault os folder).
Qed.

(** Nothing that exists is touched, whether the loop returns or throws. *)
Lemma ensure_folders_loop_keeps folders root name x :
  root !! name = Some x →
  (ensure_folders_loop os base_path folders root).1 !! name = Some x.
Proof.
  revert root. induction folders as [|f fs IH]; intros root Hx; [done|].
  rewrite ensure_folders_loop_cons.
  destruct (root !! f) as [y|] eqn:Hf; [by apply IH|].
  destruct (mkdir_fault os f); [done|].
  apply IH. rewrite lookup_insert_ne; [done|]. congruence.
Qed.

(** What the loop adds are empty directories named after folders. *)
Lemma ensure_folders_loop_adds folders root name x :
  (ensure_folders_loop os base_path folders root).1 !! name = Some x →
  root !! name = Some x ∨ (root !! name = None ∧ name ∈ folders ∧ x = Dir ∅).
Proof.
  revert root. induction folders as [|f fs IH]; intros root; [by left|].
  rewrite ensure_folders_loop_cons.
  destruct (root !! f) as [y|] eqn:Hf.
  - intros [?|(? & ? & ?)]%IH; [by left|]. right. by split_and!; [|right|].
  - destruct (mkdir_fault os f); [by left|].
    intros [Hx|(Hn & Hin & ->)]%IH.
    + rewrite lookup_insert in Hx. case_decide as Heq.
      * subst f. injection Hx as <-. right. by split_and!; [|left|].
      * by left.
    + rewrite lookup_insert in Hn. case_decide; [done|].
      right. by split_and!; [|right|].
Qed.

(** When the loop returns, every folder name it went over exists. *)
Lemma ensure_folders_loop_returned folders root folder :
  (ensure_folders_loop os base_path folders root).2 = Returned →
  folder ∈ folders →
  is_Some ((ensure_folders_loop os base_path folders root).1 !! folder).
Proof.
  revert root. induction folders as [|f fs IH]; intros root Hret Hin.
  { by apply elem_of_nil in Hin. }
  rewrite ensure_folders_loop_cons in *.
  apply elem_of_cons in Hin as [->|Hin].
  - destruct (root !! f) as [y|] eqn:Hf.
    + exists y. by apply ensure_folders_loop_keeps.
    + destruct (mkdir_fault os f); [done|].
      exists (Dir ∅). apply ensure_folders_loop_keeps, lookup_insert_eq.
  - destruct (root !! f) as [y|] eqn:Hf; [by apply IH|].
    destruct (mkdir_fault os f); [done|]. by apply IH.
Qed.

(** On a directory that has all the names, the loop is a no-op. *)
Lemma ensure_folders_loop_noop folders root :
  (∀ folder, folder ∈ folders → is_Some (root !! folder)) →
  ensure_folders_loop os base_path folders root = (root, Returned).
Proof.
  induction folders as [|f fs IH]; intros Hall; [done|].
  rewrite ensure_folders_loop_cons.
  destruct (Hall f) as [y ->]; [by left|].
  apply IH. intros folder Hin. apply Hall. by right.
Qed.

(** The loop throws as soon as a missing folder cannot be created, and
    the message names that folder's path and the cause. *)
Lemma ensure_folders_loop_thrown folders root :
  (∃ folder, folder ∈ folders ∧ root !! folder = None
             ∧ is_Some (mkdir_fault os folder)) →
  ∃ folder what,
    folder ∈ folders ∧ root !! folder = None ∧
    mkdir_fault os folder = Some what ∧
    (ensure_folders_loop os base_path folders root).2
    = Thrown ("Error creating directory "
              +:+ path_append base_path folder +:+ ": " +:+ what).
Proof.
  revert root. induction folders as [|f fs IH]; intros root (folder & Hin & Hnone & Hfault).
  { by apply elem_of_nil in Hin. }
  rewrite ensure_folders_loop_cons.
  destruct (root !! f) as [y|] eqn:Hf.
  - apply elem_of_cons in Hin as [->|Hin]; [congruence|].
    destruct (IH root) as (f' & what & ? & ? & ? & ?); [by exists folder|].
    exists f', what. by split_and!; [right|..].
  - destruct (mkdir_fault os f) as [what|] eqn:Hm.
    + exists f, what. by split_and!; [left|..].
    + apply elem_of_cons in Hin as [->|Hin].
      { rewrite Hm in Hfault. by destruct Hfault. }
      destruct (IH (<[f := Dir ∅]> root)) as (f' & what & ? & Hn' & ? & ?).
      { exists folder. split_and!; [done| |done].
        rewrite lookup_insert_ne; [done|]. intros ->.
        rewrite Hm in Hfault. by destruct Hfault. }
      exists f', what. split_and!; [by right| |done..].
      rewrite lookup_insert in Hn'. by case_decide.
Qed.

End provisioning.

(** The loop returns exactly when every missing folder can be created,
    and the directory it returns has, besides what it had, an empty
    directory at each missing name: neither depends on the order in
    which the folder names are visited. *)
Lemma ensure_folders_loop_returns os base_path folders root :
  (ensure_folders_loop os base_path folders root).2 = Returned ↔
  ∀ folder, folder ∈ folders → root !! folder = None →
            mkdir_fault os folder = None.
Proof.
  split.
  - intros Hret folder Hin Hnone.
    destruct (mkdir_fault os folder) as [what|] eqn:Hfault; [|done].
    destruct (ensure_folders_loop_thrown os base_path folders root)
      as (f & w & _ & _ & _ & Hthrown); [|congruence].
    exists folder. by rewrite Hfault.
  - revert root. induction folders as [|f fs IH]; intros root Hall; [done|].
    rewrite ensure_folders_loop_cons.
    destruct (root !! f) as [x|] eqn:Hf.
    + apply IH. intros folder Hin. apply Hall. by right.
    + rewrite (Hall f) by (done || by left).
      apply IH. intros folder Hin Hnone. apply Hall; [by right|].
      rewrite lookup_insert in Hnone. by case_decide.
Qed.

Lemma ensure_folders_loop_lookup os base_path folders root name :
  (ensure_folders_loop os base_path folders root).2 = Returned →
  (ensure_folders_loop os base_path folders root).1 !! name
  = match root !! name with
    | Some x => Some x
    | None => if decide (name ∈ folders) then Some (Dir ∅) else None
    end.
Proof.
  intros Hret. destruct (root !! name) as [x|] eqn:Hn.
  - by apply ensure_folders_loop_keeps.
  - destruct (decide (name ∈ folders)) as [Hin|Hin].
    + destruct (ensure_folders_loop_returned os base_path folders root name
                  Hret Hin) as [x Hx].
      rewrite Hx.
      apply ensure_folders_loop_adds in Hx as [?|(_ & _ & ->)]; [congruence|done].
    + destruct ((ensure_folders_loop os base_path folders root).1 !! name)
        as [x|] eqn:Hx; [|done].
      apply ensure_folders_loop_adds in Hx as [?|(_ & ? & _)]; [congruence|done].
Qed.

Lemma ensure_folders_loop_order os base_path folders folders' root :
  folders' ≡ₚ folders →
  (ensure_folders_loop os base_path folders root).2 = Returned →
  ensure_folders_loop os base_path folders' root
  = ensure_folders_loop os base_path folders root.
Proof.
  intros Hperm Hret.
  assert (Hret' : (ensure_folders_loop os base_path folders' root).2 = Returned).
  { apply (ensure_folders_loop_returns os base_path folders' root).
    intros folder Hin. rewrite Hperm in Hin.
    by apply (proj1 (ensure_folders_loop_returns os base_path folders root) Hret). }
  pose proof (ensure_folders_loop_lookup os base_path folders' root) as L1.
  pose proof (ensure_folders_loop_lookup os base_path folders root) as L2.
  destruct (ensure_folders_loop os base_path folders' root) as [r1 o1].
  destruct (ensure_folders_loop os base_path folders root) as [r2 o2].
  simpl in *. subst o1 o2. f_equal. apply map_eq. intros name.
  rewrite L1, L2 by done.
  destruct (root !! name); [done|].
  destruct (decide (name ∈ folders')) as [Hin|Hin];
    destruct (decide (name ∈ folders)) as [Hin'|Hin']; try done.
  - by rewrite Hperm in Hin.
  - by rewrite <- Hperm in Hin'.
Qed.

(** Provisioning that returns leaves a directory at every category name
    that was free or already a directory. *)
Lemma ensure_folders_provisions os base_path root folder :
  (ensure_folders os base_path root).2 = Returned →
  folder ∈ folder_names FOLDER_MAP →
  root !! folder = None ∨ is_directory root folder = true →
  is_directory (ensure_folders os base_path root).1 folder = true.
Proof.
  unfold ensure_folders. intros Hret Hin Hfree.
  destruct (ensure_folders_loop_returned os base_path _ root folder Hret Hin)
    as [x Hx].
  unfold is_directory in *. rewrite Hx.
  apply ensure_folders_loop_adds in Hx as [Hx|(_ & _ & ->)]; [|done].
  rewrite Hx in Hfree. by destruct Hfree.
Qed.

(** Provisioning again after a provisioning that returned changes
    nothing. *)
Lemma ensure_folders_idempotent os base_path root root' :
  ensure_folders os base_path root = (root', Returned) →
  ensure_folders os base_path root' = (root', Returned).
Proof.
  unfold ensure_folders. intros Heq.
  apply ensure_folders_loop_noop. intros folder Hin.
  pose proof (ensure_folders_loop_returned os base_path
                (folder_names FOLDER_MAP) root folder) as H.
  rewrite Heq in H. by apply H.
Qed.

(** C3 fails on the code: in a directory that holds a regular file named
    "Others", [ensure_folders] returns normally, and what is at
    "Others" afterwards is still that file, not a sub-directory. *)
Theorem ensure_folders_keeps_file_named_as_folder :
  (ensure_folders no_faults "/d" {[ "Others" := File "" ]}).2 = Returned ∧
  (ensure_folders no_faults "/d" {[ "Others" := File "" ]}).1 !! "Others"
  = Some (File "") ∧
  is_directory (ensure_folders no_faults "/d" {[ "Others" := File "" ]}).1 "Others"
  = false.
Proof. vm_compute. done. Qed.

(** ** A provisioning failure is fatal *)

(** [organize_files] lets the exception of [ensure_folders] through
    before it looks at any entry. *)
Lemma organize_files_thrown os g base_path self_path root :
  (∃ folder, folder ∈ folder_names FOLDER_MAP ∧ root !! folder = None
             ∧ is_Some (mkdir_fault os folder)) →
  ∃ folder what,
    folder ∈ folder_names FOLDER_MAP ∧ root !! folder = None ∧
    mkdir_fault os folder = Some what ∧
    organize_files os g base_path self_path root
    = ((ensure_folders os base_path root).1, [],
       Thrown ("Error creating directory "
               +:+ path_append base_path folder +:+ ": " +:+ what)).
Proof.
  intros Hfail.
  destruct (ensure_folders_loop_thrown os base_path _ root Hfail)
    as (folder & what & Hin & Hnone & Hfault & Hthrown).
  exists folder, what. split_and!; try done.
  unfold organize_files, ensure_folders in *.
  destruct (ensure_folders_loop os base_path (folder_names FOLDER_MAP) root)
    as [root1 r]. simpl in Hthrown. by subst r.
Qed.

(** C4: when some missing category folder cannot be created, the run
    ends with exit code 1 right after the announcement, with one error
    line that names the path that failed and the cause; no entry of the
    directory has been moved or changed, the only difference being the
    empty category folders created before the failure. *)
Theorem provisioning_failure_is_fatal w argv0 arg1 rest canonical root :
  help_flag arg1 = false →
  status w (folder_path_of w arg1) = Directory canonical root →
  (∃ folder, folder ∈ folder_names FOLDER_MAP ∧ root !! folder = None
             ∧ is_Some (mkdir_fault (os_faults w) folder)) →
  ∃ folder what root',
    folder ∈ folder_names FOLDER_MAP ∧ root !! folder = None ∧
    mkdir_fault (os_faults w) folder = Some what ∧
    main w (argv0 :: arg1 :: rest)
    = (1%Z,
       [Organizing canonical;
        Unexpected ("Error creating directory "
                    +:+ path_append canonical folder +:+ ": " +:+ what)],
       Some root') ∧
    (∀ name x, root !! name = Some x → root' !! name = Some x) ∧
    (∀ name x, root' !! name = Some x →
               root !! name = Some x ∨ (name ∈ folder_names FOLDER_MAP ∧ x = Dir ∅)).
Proof.
  intros Hhelp Hstatus Hfail.
  destruct (organize_files_thrown (os_faults w) (build_extension_map ∅)
              canonical (weakly_canonical w argv0) root Hfail)
    as (folder & what & Hin & Hnone & Hfault & Hrun).
  exists folder, what, (ensure_folders (os_faults w) canonical root).1.
  split_and!; try done.
  - unfold main. rewrite Hhelp, Hstatus. cbv zeta. by rewrite Hrun.
  - intros name x. apply ensure_folders_loop_keeps.
  - intros name x [?|(_ & ? & ?)]%ensure_folders_loop_adds; [by left | by right].
Qed.

Lemma provisioning_failure_is_fatal_witness :
  let w := {| os_faults := {| mkdir_fault := λ _, Some "Permission denied";
                              rename_fault := λ _ _, None;
                              stat_fault := λ _ _, None;
                              open_fault := None;
                              scan_fault := λ _, None;
                              end_fault := None |};
              current_path := "/";
              status := λ p, if decide (p = "/d")
                             then Directory "/d" {[ "a.txt" := File "A" ]}
                             else NotFound;
              weakly_canonical := λ p, p |} in
  ∃ folder what root',
    main w ["/bin/organize"; "/d"]
    = (1%Z,
       [Organizing "/d";
        Unexpected ("Error creating directory "
                    +:+ path_append "/d" folder +:+ ": " +:+ what)],
       Some root') ∧
    root' !! "a.txt" = Some (File "A").
Proof.
  intros w.
  destruct (provisioning_failure_is_fatal w "/bin/organize" "/d" []
              "/d" {[ "a.txt" := File "A" ]})
    as (folder & what & root' & _ & _ & _ & Hmain & Hkeep & _).
  - reflexivity.
  - reflexivity.
  - exists "Programs". split_and!.
    + by left.
    + reflexivity.
    + by eexists.
  - exists folder, what, root'. split; [exact Hmain|].
    apply Hkeep. reflexivity.
Defined.

(** ** One entry of the scan *)

Section scan.
Context (os : faults) (g : gmap string string) (base_path self_path : string).

Local Abbreviation entry := (organize_entry os g base_path self_path).
Local Abbreviation entries := (organize_entries os g base_path self_path).
Local Abbreviation can_move := (movable os g base_path self_path).

Lemma candidate_spec root name :
  candidate base_path self_path root name = true ↔
  (∃ data, root !! name = Some (File data)) ∧
  path_append base_path name ≠ self_path ∧ extension name ≠ "".
Proof.
  unfold candidate, is_regular_file.
  rewrite !andb_true_iff, !negb_true_iff, bool_decide_eq_false.
  split.
  - intros [[Hreg Hself] Hext]. split_and!; [|done|].
    + destruct (root !! name) as [[d| |]|]; try done. by exists d.
    + intros Heq. by rewrite Heq in Hext.
  - intros ([d ->] & Hself & Hext). split_and!; [done..|].
    by destruct (extension name).
Qed.

(** Renaming a regular file into a directory that has nothing of its
    name succeeds unless the system refuses. *)
Lemma rename_file root name folder data children :
  root !! name = Some (File data) →
  root !! folder = Some (Dir children) →
  children !! name = None →
  rename_fault os name folder = None →
  rename os root name folder = inr (moved name folder data children root).
Proof.
  intros Hn Hf Hc Hfault. unfold rename, moved.
  rewrite Hfault, Hn, Hf, Hc.
  rewrite decide_False; [done|]. intros ->. congruence.
Qed.

(** The existence test of the [try] block, by what the directory holds
    and what the system does. *)
Lemma fs_exists_true root folder name :
  fs_exists os root folder name = inr true ↔
  exists_in root folder name = true ∧ stat_fault os name folder = None.
Proof.
  unfold fs_exists.
  destruct (exists_in root folder name), (stat_fault os name folder);
    split; (try done); by intros [? ?].
Qed.

Lemma fs_exists_false root folder name :
  fs_exists os root folder name = inr false ↔ exists_in root folder name = false.
Proof.
  unfold fs_exists.
  by destruct (exists_in root folder name), (stat_fault os name folder).
Qed.

Lemma fs_exists_error root folder name what :
  fs_exists os root folder name = inl what ↔
  exists_in root folder name = true ∧ stat_fault os name folder = Some what.
Proof.
  unfold fs_exists.
  destruct (exists_in root folder name), (stat_fault os name folder);
    split; (try done); try (by intros [? ?]).
  - intros [= ->]. done.
  - intros [_ [= ->]]. done.
Qed.

(** The ways the loop body can go: the entry is skipped; its target is
    found, and the notice is printed; the [try] block ends in the
    [catch], with the existence test or the renaming failing; or the
    entry is moved. *)
Lemma organize_entry_cases root out name :
  (candidate base_path self_path root name = false ∧
   entry (root, out) name = (root, out))
  ∨ (candidate base_path self_path root name = true ∧
     fs_exists os root (target_folder g name) name = inr true ∧
     entry (root, out) name
     = (root, out ++ [Skipping name (target_folder g name)]))
  ∨ (candidate base_path self_path root name = true ∧
     fs_exists os root (target_folder g name) name ≠ inr true ∧
     can_move root name = false ∧
     ∃ what,
       (fs_exists os root (target_folder g name) name = inl what
        ∨ (fs_exists os root (target_folder g name) name = inr false ∧
           rename os root name (target_folder g name) = inl what)) ∧
       entry (root, out) name = (root, out ++ [ErrorMoving name what]))
  ∨ (can_move root name = true ∧
     ∃ data children,
       root !! name = Some (File data) ∧
       root !! target_folder g name = Some (Dir children) ∧
       children !! name = None ∧
       entry (root, out) name
       = (moved name (target_folder g name) data children root, out)).
Proof.
  destruct (candidate base_path self_path root name) eqn:Hcand.
  - right. pose proof Hcand as ([data Hn] & Hself & Hext)%candidate_spec.
    assert (Hemp : empty (extension name) = false)
      by (by destruct (extension name)).
    unfold movable. rewrite Hcand.
    unfold organize_entry, is_regular_file.
    rewrite Hn, (bool_decide_eq_false_2 _ Hself), Hemp. cbn [negb andb].
    change (get_target_folder g (extension name)) with (target_folder g name).
    destruct (fs_exists os root (target_folder g name) name) as [w|[|]] eqn:Hex.
    { right; left. apply fs_exists_error in Hex as Hex'. destruct Hex' as [-> _].
      split_and!; try done. exists w. split; [by left|done]. }
    { by left. }
    right. apply fs_exists_false in Hex as Hex'. rewrite Hex'. cbn [negb andb].
    unfold is_directory, exists_in in *.
    destruct (rename_fault os name (target_folder g name)) as [w|] eqn:Hfault.
    { left. split_and!; try done.
      - rewrite bool_decide_eq_false_2 by done. by rewrite andb_false_r.
      - exists w. unfold rename. rewrite Hfault. split; [by right|done]. }
    destruct (root !! target_folder g name) as [[d|children|]|] eqn:Hf.
    + left. split_and!; try done. unfold rename. rewrite Hfault, Hn, Hf.
      eexists. split; [by right|done].
    + right. apply bool_decide_eq_false in Hex'.
      apply eq_None_not_Some in Hex'.
      split; [by rewrite bool_decide_eq_true_2|].
      exists data, children. split_and!; try done.
      by rewrite (rename_file _ _ _ data children).
    + left. split_and!; try done. unfold rename. rewrite Hfault, Hn, Hf.
      eexists. split; [by right|done].
    + left. split_and!; try done. unfold rename. rewrite Hfault, Hn, Hf.
      eexists. split; [by right|done].
  - left. split; [done|]. unfold organize_entry.
    unfold candidate in Hcand.
    apply andb_false_iff in Hcand as [->|Hemp]; [done|].
    apply negb_false_iff in Hemp. rewrite Hemp.
    by destruct (_ && _).
Qed.

(** What is found where, once a file has moved. *)
Lemma moved_lookup name folder data children root m :
  moved name folder data children root !! m
  = if decide (folder = m) then Some (Dir (<[name := File data]> children))
    else if decide (name = m) then None
    else root !! m.
Proof. unfold moved. by rewrite lookup_insert, lookup_delete. Qed.

(** An entry that cannot be moved leaves the directory as it is. *)
Lemma organize_entry_stuck root out name :
  can_move root name = false → (entry (root, out) name).1 = root.
Proof.
  intros Hstuck.
  destruct (organize_entry_cases root out name)
    as [[_ ->]|[(_ & _ & ->)|[(_ & _ & _ & what & _ & ->)|[Hmove _]]]];
    try done.
  congruence.
Qed.

(** The lines the body prints are about the entry it is given, and it
    prints only for entries that got past the two skips. *)
Lemma organize_entry_log root out name :
  ∃ lines, (entry (root, out) name).2 = out ++ lines ∧
           ∀ e, e ∈ lines →
                subject e = Some name ∧
                candidate base_path self_path root name = true.
Proof.
  destruct (organize_entry_cases root out name)
    as [[_ ->]|[(Hc & _ & ->)|[(Hc & _ & _ & what & _ & ->)|
        (_ & data & children & _ & _ & _ & ->)]]]; simpl.
  - exists []. split; [by rewrite app_nil_r|]. by intros e ?%elem_of_nil.
  - eexists. split; [done|]. by intros e ->%list_elem_of_singleton.
  - eexists. split; [done|]. by intros e ->%list_elem_of_singleton.
  - exists []. split; [by rewrite app_nil_r|]. by intros e ?%elem_of_nil.
Qed.

(** Moving one file makes no other entry movable, and the file that
    moved is no longer there to be moved. *)
Lemma movable_moved root n data children m :
  root !! n = Some (File data) →
  root !! target_folder g n = Some (Dir children) →
  can_move (moved n (target_folder g n) data children root) m = true →
  can_move root m = true ∧ m ≠ n.
Proof.
  intros Hn Hc. unfold movable, candidate, is_regular_file, exists_in, is_directory.
  rewrite !moved_lookup.
  destruct (decide (target_folder g n = m)) as [<-|Hcm]; [done|].
  destruct (decide (n = m)) as [<-|Hnm]; [done|].
  intros H. split; [|done]. revert H.
  destruct (decide (target_folder g n = target_folder g m)) as [<-|Hcc].
  - rewrite Hc. by rewrite lookup_insert_ne.
  - destruct (decide (n = target_folder g m)); [|done].
    intros H. apply andb_true_iff in H as [H _].
    by apply andb_true_iff in H as [_ H].
Qed.

Lemma movable_entry root out n m :
  can_move (entry (root, out) n).1 m = true →
  can_move root m = true ∧ m ≠ n.
Proof.
  destruct (organize_entry_cases root out n)
    as [[Hc ->]|[(_ & Hex & ->)|[(_ & _ & Hst & what & _ & ->)|
        (_ & data & children & Hn & Hf & _ & ->)]]]; simpl.
  - intros H. split; [done|]. intros ->. unfold movable in H.
    by rewrite Hc in H.
  - intros H. split; [done|]. intros ->. unfold movable in H.
    apply fs_exists_true in Hex as [Hex _].
    rewrite Hex in H. by rewrite andb_false_r in H.
  - intros H. split; [done|]. intros ->. congruence.
  - by apply movable_moved.
Qed.

Lemma organize_entries_cons n names st :
  entries (n :: names) st = entries names (entry st n).
Proof. done. Qed.

(** After the scan, whatever is movable was movable from the start and
    was not among the names scanned. *)
Lemma movable_entries names root out m :
  can_move (entries names (root, out)).1 m = true →
  can_move root m = true ∧ m ∉ names.
Proof.
  revert root out. induction names as [|n names IH]; intros root out.
  - intros H. split; [done|]. apply not_elem_of_nil.
  - rewrite organize_entries_cons.
    destruct (entry (root, out) n) as [root' out'] eqn:Hstep.
    intros [Hm Hnin]%IH.
    assert (Hroot' : root' = (entry (root, out) n).1) by by rewrite Hstep.
    rewrite Hroot' in Hm. apply movable_entry in Hm as [Hm Hne].
    split; [done|]. by intros [->|?]%elem_of_cons.
Qed.

(** A scan over names none of which is movable changes nothing in the
    directory. *)
Lemma organize_entries_stuck names root out :
  (∀ m, m ∈ names → can_move root m = false) →
  (entries names (root, out)).1 = root.
Proof.
  revert out. induction names as [|n names IH]; intros out Hall; [done|].
  rewrite organize_entries_cons.
  destruct (entry (root, out) n) as [root' out'] eqn:Hstep.
  assert (root' = root) as ->.
  { change root' with (root', out').1. rewrite <- Hstep.
    apply organize_entry_stuck, Hall. by left. }
  apply IH. intros m Hin. apply Hall. by right.
Qed.

(** What the body does to any one name [m] of the directory: nothing;
    or [m] is the entry itself, which has left; or [m] is the folder
    that has just received the entry. *)
Lemma organize_entry_lookup root out n m :
  (entry (root, out) n).1 !! m = root !! m
  ∨ (m = n ∧ can_move root n = true ∧ (entry (root, out) n).1 !! m = None)
  ∨ (m = target_folder g n ∧ m ≠ n ∧ can_move root n = true ∧
     ∃ data children,
       root !! n = Some (File data) ∧ root !! m = Some (Dir children) ∧
       children !! n = None ∧
       (entry (root, out) n).1 !! m
       = Some (Dir (<[n := File data]> children))).
Proof.
  destruct (organize_entry_cases root out n)
    as [[_ ->]|[(_ & _ & ->)|[(_ & _ & _ & what & _ & ->)|
        (Hmove & data & children & Hn & Hf & Hfree & ->)]]];
    try by left.
  cbn [fst]. rewrite moved_lookup.
  destruct (decide (target_folder g n = m)) as [<-|Hcm].
  - right; right. split_and!; try done.
    + intros Heq. rewrite Heq in Hf. congruence.
    + by exists data, children.
  - destruct (decide (n = m)) as [<-|Hnm]; [|by left].
    right; left. done.
Qed.

Lemma candidate_movable root name :
  can_move root name = true → candidate base_path self_path root name = true.
Proof.
  unfold movable. intros H.
  by do 3 (apply andb_true_iff in H as [H _]).
Qed.

(** A name without an extension that exists keeps existing. *)
Lemma organize_entry_keeps_plain root out n m :
  extension m = "" → is_Some (root !! m) →
  is_Some ((entry (root, out) n).1 !! m).
Proof.
  intros Hext Hm.
  destruct (organize_entry_lookup root out n m)
    as [->|[(-> & Hmove & _)|(_ & _ & _ & data & children & _ & _ & _ & ->)]];
    [done| |done].
  apply candidate_movable, candidate_spec in Hmove as (_ & _ & Hne). done.
Qed.

Lemma organize_entries_keeps_plain names root out m :
  extension m = "" → is_Some (root !! m) →
  is_Some ((entries names (root, out)).1 !! m).
Proof.
  intros Hext. revert root out.
  induction names as [|n names IH]; intros root out Hm; [done|].
  rewrite organize_entries_cons.
  pose proof (organize_entry_keeps_plain root out n m Hext Hm) as Hm'.
  destruct (entry (root, out) n) as [root' out']. by apply IH.
Qed.

End scan.

(** ** The console of a scan *)

Section console.
Context (os : faults) (g : gmap string string) (base_path self_path : string).

(** The folders the index answers are names without an extension. *)
Hypothesis g_plain : ∀ e, extension (get_target_folder g e) = "".

Local Abbreviation entry := (organize_entry os g base_path self_path).
Local Abbreviation entries := (organize_entries os g base_path self_path).
Local Abbreviation can_move := (movable os g base_path self_path).
Local Abbreviation notice := (notice_for os g base_path self_path).

Lemma organize_entry_notice root out n :
  (entry (root, out) n).2 = out ++ notice root n.
Proof.
  unfold notice_for, organize_entry.
  destruct (_ && _); [|by rewrite app_nil_r].
  destruct (empty _); [by rewrite app_nil_r|].
  destruct (fs_exists _ _ _ _) as [w|[|]]; [done|done|].
  destruct (rename _ _ _ _); [done|by rewrite app_nil_r].
Qed.

(** What is printed for an entry, by what the directory holds. *)
Lemma notice_for_spec root n :
  notice root n
  = if candidate base_path self_path root n then
      match fs_exists os root (target_folder g n) n with
      | inl what => [ErrorMoving n what]
      | inr true => [Skipping n (target_folder g n)]
      | inr false =>
          match rename_fault os n (target_folder g n) with
          | Some what => [ErrorMoving n what]
          | None =>
              match root !! target_folder g n with
              | Some (Dir _) => []
              | Some _ => [ErrorMoving n "cannot rename: Not a directory"]
              | None => [ErrorMoving n "cannot rename: No such file or directory"]
              end
          end
      end
    else [].
Proof.
  unfold notice_for.
  destruct (organize_entry_cases os g base_path self_path root [] n)
    as [[-> ->]|[(-> & -> & ->)|[(Hc & _ & Hst & what & [Hex|[Hex Hren]] & ->)|
        (Hmove & data & children & Hn & Hf & Hfree & ->)]]]; try done.
  - by rewrite Hc, Hex.
  - rewrite Hc, Hex. cbn [snd app].
    pose proof Hc as ([data Hn] & _)%candidate_spec.
    apply fs_exists_false in Hex.
    unfold rename in Hren. unfold movable, is_directory in Hst.
    rewrite Hc, Hex in Hst. cbn [negb andb] in Hst.
    destruct (rename_fault os n (target_folder g n)) as [w|]; [congruence|].
    rewrite Hn in Hren.
    destruct (root !! target_folder g n) as [[d|ch|]|]; try congruence.
    by rewrite bool_decide_eq_true_2 in Hst.
  - pose proof Hmove as Hc%candidate_movable. rewrite Hc.
    unfold movable in Hmove. rewrite Hc in Hmove. cbn [andb] in Hmove.
    apply andb_true_iff in Hmove as [[Hex _]%andb_true_iff Hfault].
    apply negb_true_iff in Hex. apply bool_decide_eq_true in Hfault.
    apply (proj2 (fs_exists_false os _ _ _)) in Hex.
    by rewrite Hex, Hfault, Hf.
Qed.

Lemma notice_for_movable root n : can_move root n = true → notice root n = [].
Proof.
  intros Hmove. rewrite notice_for_spec.
  rewrite (candidate_movable _ _ _ _ _ _ Hmove).
  unfold movable, is_directory in Hmove.
  apply andb_true_iff in Hmove as [[[_ Hex]%andb_true_iff Hdir]%andb_true_iff Hfault].
  apply negb_true_iff in Hex. apply bool_decide_eq_true in Hfault.
  apply (proj2 (fs_exists_false os _ _ _)) in Hex.
  rewrite Hex, Hfault. by destruct (root !! target_folder g n) as [[| |]|].
Qed.

(** What the body does for one entry does not change what is printed
    for any entry. *)
Lemma notice_for_entry root out m n :
  notice (entry (root, out) m).1 n = notice root n.
Proof.
  destruct (organize_entry_cases os g base_path self_path root out m)
    as [[_ ->]|[(_ & _ & ->)|[(_ & _ & _ & what & _ & ->)|
        (Hmove & data & children & Hm & Hf & Hfree & ->)]]]; try done.
  cbn [fst]. rewrite !notice_for_spec.
  unfold candidate, is_regular_file, fs_exists, exists_in.
  rewrite !moved_lookup.
  destruct (decide (target_folder g m = n)) as [<-|Hcn]; [by rewrite Hf|].
  destruct (decide (m = n)) as [<-|Hmn].
  { pose proof (notice_for_movable root m Hmove) as Hnone.
    rewrite notice_for_spec in Hnone. exact (eq_sym Hnone). }
  destruct (decide (target_folder g m = target_folder g n)) as [<-|Hcc].
  - rewrite Hf. by rewrite lookup_insert_ne.
  - rewrite decide_False; [done|]. intros ->.
    apply candidate_movable, candidate_spec in Hmove as (_ & _ & Hext).
    apply Hext, g_plain.
Qed.

Lemma notice_for_entries names root out n :
  notice (entries names (root, out)).1 n = notice root n.
Proof.
  revert root out. induction names as [|m names IH]; intros root out; [done|].
  rewrite organize_entries_cons.
  pose proof (notice_for_entry root out m n) as Hstep.
  destruct (entry (root, out) m) as [root' out']. by rewrite IH.
Qed.

(** The console of a scan: for each name in turn, what the directory at
    the start of the scan makes the body print. *)
Lemma organize_entries_console names root out :
  (entries names (root, out)).2 = out ++ names ≫= notice root.
Proof.
  revert root out. induction names as [|m names IH]; intros root out.
  - by rewrite app_nil_r.
  - rewrite organize_entries_cons.
    pose proof (organize_entry_notice root out m) as Hout.
    pose proof (notice_for_entry root out m) as Hstep.
    destruct (entry (root, out) m) as [root' out']. cbn [fst snd] in *.
    rewrite IH, Hout, <- app_assoc. f_equal. cbn [mbind list_bind].
    fold (names ≫= notice root). f_equal.
    apply list_bind_ext; [|done]. intros n. apply Hstep.
Qed.

(** An entry that cannot be moved is still an entry after the scan. *)
Lemma organize_entries_keeps_stuck names root out n :
  can_move root n = false → is_Some (root !! n) →
  is_Some ((entries names (root, out)).1 !! n).
Proof.
  revert root out. induction names as [|m names IH]; intros root out Hst Hn;
    [done|].
  rewrite organize_entries_cons.
  assert (Hst' : can_move (entry (root, out) m).1 n = false).
  { apply not_true_is_false. intros [? _]%movable_entry. congruence. }
  assert (Hn' : is_Some ((entry (root, out) m).1 !! n)).
  { destruct (organize_entry_lookup os g base_path self_path root out m n)
      as [->|[(-> & Hmove & _)|(_ & _ & _ & d & ch & _ & _ & _ & ->)]];
      [done|congruence|done]. }
  destruct (entry (root, out) m) as [root' out']. by apply IH.
Qed.

(** The scan adds no entry to the directory. *)
Lemma organize_entries_no_new names root out n :
  is_Some ((entries names (root, out)).1 !! n) → is_Some (root !! n).
Proof.
  revert root out. induction names as [|m names IH]; intros root out; [done|].
  rewrite organize_entries_cons.
  pose proof (organize_entry_lookup os g base_path self_path root out m n) as Hl.
  destruct (entry (root, out) m) as [root' out']. cbn [fst] in Hl.
  intros Hn%IH.
  destruct Hl as [<-|[(_ & _ & Hnone)|(_ & _ & _ & d & ch & _ & -> & _)]];
    [done| |done].
  rewrite Hnone in Hn. by destruct Hn.
Qed.

End console.

(** Dropping from a duplicate-free list of names some that print nothing
    permutes the console. *)
Lemma bind_sublist_nil {A B} `{EqDecision A} (f : A → list B) (l1 l2 : list A) :
  NoDup l1 → NoDup l2 →
  (∀ x, x ∈ l1 → x ∈ l2) →
  (∀ x, x ∈ l2 → x ∉ l1 → f x = []) →
  l1 ≫= f ≡ₚ l2 ≫= f.
Proof.
  intros Hnd1 Hnd2 Hsub Hnil.
  destruct (submseteq_Permutation l1 l2) as [k Hk].
  { by apply NoDup_submseteq. }
  rewrite Hk, bind_app.
  assert (k ≫= f = []) as ->; [|by rewrite app_nil_r].
  rewrite Hk in Hnd2. apply NoDup_app in Hnd2 as (_ & Hdisj & _).
  assert (Hall : ∀ x, x ∈ k → f x = []).
  { intros x Hx. apply Hnil.
    - rewrite Hk. apply elem_of_app. by right.
    - intros Hx1. by apply (Hdisj x). }
  clear -Hall. induction k as [|x k IH]; [done|].
  cbn [mbind list_bind]. rewrite Hall by by left.
  apply IH. intros y Hy. apply Hall. by right.
Qed.

(** ** The scan and its exceptions *)

(** The names the iterator yields are the names that exist. *)
Lemma elem_of_entry_names (root : gmap string node) name :
  name ∈ (map_to_list root).*1 ↔ is_Some (root !! name).
Proof.
  rewrite list_elem_of_fmap. split.
  - intros ([k x] & -> & Hin). apply elem_of_map_to_list in Hin. by exists x.
  - intros [x Hx]. exists (name, x). split; [done|]. by apply elem_of_map_to_list.
Qed.

Section scan_exceptions.
Context (os : faults) (g : gmap string string) (base_path self_path : string).

Local Abbreviation entries := (organize_entries os g base_path self_path).
Local Abbreviation scan := (organize_scan os g base_path self_path).

(** The loop returns when no entry fails to be reached and examined and
    the end of the directory is reached; it has then run the loop body
    for every name. *)
Lemma organize_scan_returns names st :
  (∀ n, n ∈ names → scan_fault os n = None) → end_fault os = None →
  scan names st = (entries names st, Returned).
Proof.
  intros Hall Hend. revert st.
  induction names as [|n names IH]; intros st; cbn [organize_scan].
  - by rewrite Hend.
  - rewrite Hall by by left. rewrite IH; [done|].
    intros m Hm. apply Hall. by right.
Qed.

Lemma organize_scan_returned names st :
  (scan names st).2 = Returned ↔
  (∀ n, n ∈ names → scan_fault os n = None) ∧ end_fault os = None.
Proof.
  split.
  - revert st. induction names as [|n names IH]; intros st; cbn [organize_scan].
    + destruct (end_fault os); [done|]. split; [|done]. by intros n ?%elem_of_nil.
    + destruct (scan_fault os n) eqn:Hn; [done|].
      intros [Hall Hend]%IH. split; [|done].
      by intros m [->|Hm]%elem_of_cons; [|apply Hall].
  - intros [Hall Hend]. by rewrite organize_scan_returns.
Qed.

(** However the loop ends, it has run the loop body for the names of a
    prefix of the listing, and for all of them when it returns. *)
Lemma organize_scan_prefix names st :
  ∃ seen, seen `prefix_of` names ∧ (scan names st).1 = entries seen st ∧
          ((scan names st).2 = Returned → seen = names).
Proof.
  revert st. induction names as [|n names IH]; intros st; cbn [organize_scan].
  - exists []. split; [done|]. by destruct (end_fault os).
  - destruct (scan_fault os n).
    + exists []. split_and!; [apply prefix_nil|done|done].
    + destruct (IH (organize_entry os g base_path self_path st n))
        as (seen & Hpre & Heq & Hret).
      exists (n :: seen). split_and!.
      * by apply prefix_cons.
      * done.
      * intros H. by rewrite Hret.
Qed.

(** The same for the whole of [organize_files]: the folders are
    provisioned, and the loop body is run for a prefix of the listing of
    the directory they are provisioned in. *)
Lemma organize_files_run root :
  ∃ seen,
    seen `prefix_of` (map_to_list (ensure_folders os base_path root).1).*1 ∧
    (organize_files os g base_path self_path root).1
    = entries seen ((ensure_folders os base_path root).1, []) ∧
    ((organize_files os g base_path self_path root).2 = Returned →
     seen = (map_to_list (ensure_folders os base_path root).1).*1).
Proof.
  unfold organize_files.
  destruct (ensure_folders os base_path root) as [root1 [|what]]; cbn [fst snd].
  - destruct (open_fault os).
    + exists []. split_and!; [apply prefix_nil|done|done].
    + apply organize_scan_prefix.
  - exists []. split_and!; [apply prefix_nil|done|done].
Qed.

(** [organize_files] returns exactly when the provisioning does, the
    directory can be opened, and the loop returns. *)
Lemma organize_files_returned root :
  (organize_files os g base_path self_path root).2 = Returned ↔
  (ensure_folders os base_path root).2 = Returned ∧
  open_fault os = None ∧
  (∀ n, is_Some ((ensure_folders os base_path root).1 !! n) →
        scan_fault os n = None) ∧
  end_fault os = None.
Proof.
  unfold organize_files.
  destruct (ensure_folders os base_path root) as [root1 [|what]]; cbn [fst snd].
  - destruct (open_fault os) as [w|]; cbn [snd].
    + split; [done|]. by intros (_ & ? & _).
    + rewrite organize_scan_returned. split.
      * intros [Hall Hend]. split_and!; try done.
        intros n Hn. by apply Hall, elem_of_entry_names.
      * intros (_ & _ & Hall & Hend). split; [|done].
        intros n Hn. by apply Hall, elem_of_entry_names.
  - split; [done|]. by intros [? _].
Qed.



End scan_exceptions.

(** What a run is, in terms of the loop body. *)
Lemma organize_run os base_path self_path root root' out r :
  organize os base_path self_path root = (root', out, r) →
  ∃ seen,
    seen `prefix_of` (map_to_list (ensure_folders os base_path root).1).*1 ∧
    (root', out)
    = organize_entries os g_extension_to_folder_map base_path self_path
        seen ((ensure_folders os base_path root).1, []) ∧
    (r = Returned →
     seen = (map_to_list (ensure_folders os base_path root).1).*1).
Proof.
  intros Hrun. unfold organize in Hrun.
  destruct (organize_files_run os g_extension_to_folder_map base_path self_path
              root) as (seen & Hpre & Heq & Hret).
  rewrite Hrun in Heq, Hret. exists seen. by split_and!.
Qed.

Lemma organize_run_returned os base_path self_path root root' out :
  organize os base_path self_path root = (root', out, Returned) →
  (root', out)
  = organize_entries os g_extension_to_folder_map base_path self_path
      (map_to_list (ensure_folders os base_path root).1).*1
      ((ensure_folders os base_path root).1, []).
Proof.
  intros (seen & _ & Heq & Hret)%organize_run. by rewrite <- Hret.
Qed.

(** ** Running twice *)

Lemma folder_names_plain :
  Forall (λ folder, extension folder = "") (folder_names FOLDER_MAP).
Proof. apply (bool_decide_unpack _). vm_compute. exact I. Qed.

Lemma classify_plain e :
  extension (get_target_folder g_extension_to_folder_map e) = "".
Proof.
  pose proof folder_names_plain as Hplain.
  rewrite Forall_forall in Hplain. apply Hplain.
  apply get_target_folder_is_folder.
Qed.

(** C8: a second run over a directory that a first, completed run has
    organized moves nothing: it completes and leaves the directory
    exactly as the first run left it (the folders are not created again,
    the files now inside the category folders are not entries of the
    directory, and no entry left behind has become movable); and it
    prints again, in some order, the very lines of the first run: what
    was skipped or refused is skipped or refused again for the same
    reason. *)
Theorem organize_twice os base_path self_path root root1 out1 :
  organize os base_path self_path root = (root1, out1, Returned) →
  ∃ out2, organize os base_path self_path root1 = (root1, out2, Returned) ∧
          out2 ≡ₚ out1.
Proof.
  intros Hrun.
  assert (Hret : (organize_files os g_extension_to_folder_map base_path self_path
                    root).2 = Returned)
    by (by unfold organize in Hrun; rewrite Hrun).
  apply organize_files_returned in Hret as (Hret & Hopen & Hreach & Hend).
  apply organize_run_returned in Hrun. symmetry in Hrun.
  unfold organize, organize_files.
  destruct (ensure_folders os base_path root) as [root0 r0] eqn:Hens.
  cbn [fst snd] in *. subst r0.
  set (names0 := (map_to_list root0).*1) in *.
  set (names1 := (map_to_list root1).*1).
  assert (Hroot1 : (organize_entries os g_extension_to_folder_map base_path
                      self_path names0 (root0, [])).1 = root1)
    by by rewrite Hrun.
  assert (Hout1 : out1 = names0 ≫= notice_for os g_extension_to_folder_map
                                     base_path self_path root0).
  { rewrite <- (app_nil_l (names0 ≫= _)).
    rewrite <- (organize_entries_console os g_extension_to_folder_map base_path
                  self_path classify_plain). by rewrite Hrun. }
  assert (Hnoop : ensure_folders os base_path root1 = (root1, Returned)).
  { apply ensure_folders_loop_noop. intros folder Hin.
    rewrite <- Hroot1. apply organize_entries_keeps_plain.
    - pose proof folder_names_plain as Hplain.
      rewrite Forall_forall in Hplain. by apply Hplain.
    - pose proof (ensure_folders_loop_returned os base_path
                    (folder_names FOLDER_MAP) root folder) as H.
      unfold ensure_folders in Hens. rewrite Hens in H. by apply H. }
  rewrite Hnoop, Hopen. fold names1.
  rewrite organize_scan_returns; [|
    intros n Hn%elem_of_entry_names; apply Hreach;
    rewrite <- Hroot1 in Hn; by apply organize_entries_no_new in Hn | done].
  assert (Hstuck : ∀ m, movable os g_extension_to_folder_map base_path self_path
                          root1 m = false).
  { intros m. apply not_true_is_false. rewrite <- Hroot1.
    intros [Hm Hnin]%movable_entries. apply Hnin.
    apply elem_of_entry_names.
    apply candidate_movable, candidate_spec in Hm as ([data ->] & _). done. }
  pose proof (organize_entries_console os g_extension_to_folder_map base_path
                self_path classify_plain names1 root1 []) as Hout2.
  destruct (organize_entries os g_extension_to_folder_map base_path self_path
              names1 (root1, [])) as [root2 out2] eqn:Hsecond.
  exists out2. split.
  - f_equal. f_equal.
    change root2 with (root2, out2).1. rewrite <- Hsecond.
    apply organize_entries_stuck. intros m _. apply Hstuck.
  - cbn [snd] in Hout2. rewrite Hout2, Hout1, app_nil_l.
    rewrite (list_bind_ext _ (notice_for os g_extension_to_folder_map base_path
                                self_path root0) names1 names1);
      [| |done].
    2:{ intros n. rewrite <- Hroot1.
        apply (notice_for_entries os g_extension_to_folder_map base_path self_path
                 classify_plain). }
    apply bind_sublist_nil.
    + apply NoDup_fst_map_to_list.
    + apply NoDup_fst_map_to_list.
    + intros n Hn%elem_of_entry_names. apply elem_of_entry_names.
      rewrite <- Hroot1 in Hn. by apply organize_entries_no_new in Hn.
    + intros n Hn0%elem_of_entry_names Hn1.
      destruct (movable os g_extension_to_folder_map base_path self_path root0 n)
        eqn:Hmove; [by apply notice_for_movable|].
      destruct Hn1. apply elem_of_entry_names. rewrite <- Hroot1.
      by apply organize_entries_keeps_stuck.
Qed.

Lemma organize_twice_witness :
  let root : gmap string node :=
    {[ "a.txt" := File "A"; "README" := File "R";
       "Documents" := Dir {[ "a.txt" := File "old" ]}; "b.mp3" := File "B" ]} in
  let first := organize no_faults "/d" "/bin/organize" root in
  first.2 = Returned ∧ first.1.1 !! "b.mp3" = None ∧
  ∃ out2, organize no_faults "/d" "/bin/organize" first.1.1
          = (first.1.1, out2, Returned) ∧ out2 ≡ₚ first.1.2.
Proof.
  intros root first.
  assert (Hret : first.2 = Returned) by (vm_compute; reflexivity).
  assert (Hmp3 : first.1.1 !! "b.mp3" = None) by (vm_compute; reflexivity).
  split_and!; [exact Hret | exact Hmp3 |].
  apply (organize_twice no_faults "/d" "/bin/organize" root first.1.1 first.1.2).
  rewrite <- Hret. change (first = (first.1.1, first.1.2, first.2)).
  clear Hret Hmp3. generalize first. by intros [[? ?] ?].
Defined.

(** ** What a run does to one file *)

Section outcomes.
Context (os : faults) (g : gmap string string) (base_path self_path : string).

Local Abbreviation entry := (organize_entry os g base_path self_path).
Local Abbreviation entries := (organize_entries os g base_path self_path).
Local Abbreviation can_move := (movable os g base_path self_path).

(** Induction over the scan for a property of the directory and the
    console. *)
Lemma organize_entries_ind (P : gmap string node → list event → Prop)
    names root out :
  P root out →
  (∀ n root out, n ∈ names → P root out →
                 P (entry (root, out) n).1 (entry (root, out) n).2) →
  P (entries names (root, out)).1 (entries names (root, out)).2.
Proof.
  revert root out. induction names as [|n names IH]; intros root out H0 Hstep;
    [done|].
  rewrite organize_entries_cons.
  pose proof (Hstep n root out (list_elem_of_here _ _) H0) as H1.
  destruct (entry (root, out) n) as [root' out']. apply IH; [done|].
  intros m r o Hin. apply Hstep. by right.
Qed.

(** The run keeps what it skips for want of an extension, and prints
    nothing about it. *)
Lemma organize_files_leaves root name data :
  root !! name = Some (File data) → extension name = "" →
  (organize_files os g base_path self_path root).1.1 !! name = Some (File data) ∧
  ∀ e, e ∈ (organize_files os g base_path self_path root).1.2 →
       subject e ≠ Some name.
Proof.
  intros Hn Hext.
  pose proof (ensure_folders_loop_keeps os base_path (folder_names FOLDER_MAP)
                root name _ Hn) as Hkeep.
  fold (ensure_folders os base_path root) in Hkeep.
  destruct (organize_files_run os g base_path self_path root)
    as (seen & _ & -> & _).
  apply (organize_entries_ind
           (λ r o, r !! name = Some (File data) ∧ ∀ e, e ∈ o → subject e ≠ Some name)).
  { split; [done|]. by intros e ?%elem_of_nil. }
  clear Hn Hkeep. intros n r o _ [Hn Hout]. split.
  - destruct (organize_entry_lookup os g base_path self_path r o n name)
      as [->|[(-> & Hmove & _)|(_ & _ & _ & d & ch & _ & Hdir & _)]];
      [done| |congruence].
    apply candidate_movable, candidate_spec in Hmove as (_ & _ & Hne).
    by destruct Hne.
  - intros e Hin.
    destruct (organize_entry_log os g base_path self_path r o n)
      as (lines & Heq & Hlines). rewrite Heq in Hin.
    apply elem_of_app in Hin as [Hin|Hin]; [by apply Hout|].
    destruct (Hlines e Hin) as [-> Hcand]. intros [= ->].
    apply candidate_spec in Hcand as (_ & _ & Hne). by destruct Hne.
Qed.

(** *** Collisions *)

Lemma exists_in_not_movable root name :
  exists_in root (target_folder g name) name = true → can_move root name = false.
Proof.
  intros Hex. unfold movable. rewrite Hex. cbn [negb].
  by rewrite andb_false_r.
Qed.

Lemma collides_exists_in name data x root :
  collides g name data x root → exists_in root (target_folder g name) name = true.
Proof.
  intros (_ & children & Hf & Hx). unfold exists_in. rewrite Hf.
  apply bool_decide_eq_true. by exists x.
Qed.

(** No entry of the scan disturbs a collision. *)
Lemma collides_entry name data x root out n :
  collides g name data x root → collides g name data x (entry (root, out) n).1.
Proof.
  intros Hcol. pose proof Hcol as (Hn & children & Hf & Hx). split.
  - destruct (organize_entry_lookup os g base_path self_path root out n name)
      as [->|[(-> & Hmove & _)|(_ & _ & _ & d & ch & _ & Hdir & _)]];
      [done| |congruence].
    apply collides_exists_in, exists_in_not_movable in Hcol. congruence.
  - destruct (organize_entry_lookup os g base_path self_path root out n
                (target_folder g name))
      as [->|[(Heq & Hmove & _)|(Heq & _ & _ & d & ch & _ & Hdir & Hfree & ->)]].
    + by exists children.
    + apply candidate_movable, candidate_spec in Hmove as ([d Hd] & _).
      rewrite <- Heq in Hd. congruence.
    + exists (<[n := File d]> ch). split; [done|].
      assert (ch = children) as -> by congruence.
      rewrite lookup_insert_ne; [done|]. intros ->. congruence.
Qed.

(** On a collision the body prints the collision line, or nothing if it
    skips the entry beforehand; the directory is not touched. *)
Lemma organize_entry_collision name data x root out :
  collides g name data x root →
  (candidate base_path self_path root name = false ∧
   entry (root, out) name = (root, out))
  ∨ (candidate base_path self_path root name = true ∧
     entry (root, out) name
     = (root, out ++ [collision_line os name (target_folder g name)])).
Proof.
  intros Hex%collides_exists_in. unfold collision_line.
  destruct (organize_entry_cases os g base_path self_path root out name)
    as [[Hc ->]|[(Hc & Ht & ->)|[(Hc & _ & _ & what & [He|[He _]] & ->)|
        [Hmove _]]]].
  - by left.
  - right. apply fs_exists_true in Ht as [_ Ht]. by rewrite Ht.
  - right. apply fs_exists_error in He as [_ He]. by rewrite He.
  - apply fs_exists_false in He. congruence.
  - apply exists_in_not_movable in Hex. congruence.
Qed.

(** Through a scan from a collision: the collision stands, and the only
    line about the file is the collision line. *)
Lemma organize_entries_collision names name data x root out :
  collides g name data x root →
  (∀ e, e ∈ out → subject e = Some name →
        e = collision_line os name (target_folder g name)) →
  collides g name data x (entries names (root, out)).1 ∧
  ∀ e, e ∈ (entries names (root, out)).2 → subject e = Some name →
       e = collision_line os name (target_folder g name).
Proof.
  intros Hcol Hout.
  apply (organize_entries_ind
           (λ r o, collides g name data x r ∧
                   ∀ e, e ∈ o → subject e = Some name →
                        e = collision_line os name (target_folder g name)));
    [done|].
  clear. intros n r o _ [Hcol Hout]. split; [by apply collides_entry|].
  intros e Hin Hsub.
  destruct (decide (n = name)) as [->|Hne].
  - destruct (organize_entry_collision name data x r o Hcol)
      as [[_ Heq]|[_ Heq]]; rewrite Heq in Hin; simpl in Hin.
    + by apply Hout.
    + apply elem_of_app in Hin as [Hin|Hin]; [by apply Hout|].
      by apply list_elem_of_singleton in Hin.
  - destruct (organize_entry_log os g base_path self_path r o n)
      as (lines & Heq & Hlines). rewrite Heq in Hin.
    apply elem_of_app in Hin as [Hin|Hin]; [by apply Hout|].
    destruct (Hlines e Hin) as [Hs _]. congruence.
Qed.

Lemma organize_entry_log_grows root out n e :
  e ∈ out → e ∈ (entry (root, out) n).2.
Proof.
  intros Hin.
  destruct (organize_entry_log os g base_path self_path root out n)
    as (lines & -> & _).
  apply elem_of_app. by left.
Qed.

(** The collision line is printed when the scan reaches a colliding file
    that got past the two skips. *)
Lemma organize_entries_notice names name data x root out :
  collides g name data x root →
  path_append base_path name ≠ self_path → extension name ≠ "" →
  name ∈ names ∨ collision_line os name (target_folder g name) ∈ out →
  collision_line os name (target_folder g name) ∈ (entries names (root, out)).2.
Proof.
  intros Hcol Hself Hext. revert root out Hcol.
  induction names as [|n names IH]; intros root out Hcol [Hin|Hin]; try done.
  { by apply elem_of_nil in Hin. }
  - rewrite organize_entries_cons.
    pose proof (collides_entry name data x root out n Hcol) as Hcol'.
    apply elem_of_cons in Hin as [<-|Hin].
    + destruct (organize_entry_collision name data x root out Hcol)
        as [[Hc _]|[_ Heq]].
      * apply not_true_iff_false in Hc. destruct Hc.
        apply candidate_spec. split_and!; try done.
        destruct Hcol as [Hn _]. by exists data.
      * rewrite Heq in *. apply IH; [done|]. right.
        apply elem_of_app. right. by left.
    + destruct (entry (root, out) n) as [root' out']. apply IH; [done|by left].
  - rewrite organize_entries_cons.
    pose proof (collides_entry name data x root out n Hcol) as Hcol'.
    pose proof (organize_entry_log_grows root out n _ Hin) as Hin'.
    destruct (entry (root, out) n) as [root' out']. apply IH; [done|by right].
Qed.

(** *** Moves *)

Lemma awaits_movable name data root :
  awaits g name data root →
  path_append base_path name ≠ self_path → extension name ≠ "" →
  rename_fault os name (target_folder g name) = None →
  can_move root name = true.
Proof.
  intros (Hn & children & Hf & Hfree) Hself Hext Hfault.
  unfold movable, exists_in, is_directory. rewrite Hf, Hfree, Hfault.
  rewrite (proj2 (candidate_spec base_path self_path root name)) by eauto.
  rewrite bool_decide_eq_false_2; [by rewrite bool_decide_eq_true_2|].
  by intros [? ?].
Qed.

(** The body, given the waiting file, moves it. *)
Lemma awaits_entry_self name data root out :
  awaits g name data root →
  path_append base_path name ≠ self_path → extension name ≠ "" →
  rename_fault os name (target_folder g name) = None →
  arrived g name data (entry (root, out) name).1 ∧
  (entry (root, out) name).2 = out.
Proof.
  intros Hw Hself Hext Hfault.
  pose proof (awaits_movable name data root Hw Hself Hext Hfault) as Hmove.
  destruct Hw as (Hn & children & Hf & Hfree).
  destruct (organize_entry_cases os g base_path self_path root out name)
    as [[Hc _]|[(_ & Hex & _)|[(_ & _ & Hst & _)|
        (_ & d & ch & Hd & Hch & _ & ->)]]].
  - apply candidate_movable in Hmove. congruence.
  - apply fs_exists_true in Hex as [Hex _].
    apply exists_in_not_movable in Hex. congruence.
  - congruence.
  - split; [|done]. cbn [fst]. unfold arrived. rewrite !moved_lookup.
    assert (target_folder g name ≠ name) as Hne by (intros Heq; congruence).
    rewrite decide_False by done. rewrite !decide_True by done.
    split; [done|]. eexists. split; [done|].
    rewrite lookup_insert_eq. congruence.
Qed.

(** The body, given another entry, leaves the waiting file waiting. *)
Lemma awaits_entry_other name data root out n :
  awaits g name data root → n ≠ name →
  awaits g name data (entry (root, out) n).1.
Proof.
  intros (Hn & children & Hf & Hfree) Hne. split.
  - destruct (organize_entry_lookup os g base_path self_path root out n name)
      as [->|[(-> & _)|(_ & _ & _ & d & ch & _ & Hdir & _)]];
      [done|done|congruence].
  - destruct (organize_entry_lookup os g base_path self_path root out n
                (target_folder g name))
      as [->|[(Heq & Hmove & _)|(Heq & _ & _ & d & ch & _ & Hdir & _ & ->)]].
    + by exists children.
    + apply candidate_movable, candidate_spec in Hmove as ([d Hd] & _).
      rewrite <- Heq in Hd. congruence.
    + exists (<[n := File d]> ch). split; [done|].
      assert (ch = children) as -> by congruence.
      by rewrite lookup_insert_ne.
Qed.

(** Once the file has arrived, no entry of the scan takes it back or
    replaces it. *)
Lemma arrived_entry name data root out n :
  arrived g name data root → arrived g name data (entry (root, out) n).1.
Proof.
  intros (Hn & children & Hf & Hthere). split.
  - destruct (organize_entry_lookup os g base_path self_path root out n name)
      as [->|[(_ & _ & ->)|(_ & _ & _ & d & ch & _ & Hdir & _)]];
      [done|done|congruence].
  - destruct (organize_entry_lookup os g base_path self_path root out n
                (target_folder g name))
      as [->|[(Heq & Hmove & _)|(Heq & _ & _ & d & ch & _ & Hdir & Hfree & ->)]].
    + by exists children.
    + apply candidate_movable, candidate_spec in Hmove as ([d Hd] & _).
      rewrite <- Heq in Hd. congruence.
    + exists (<[n := File d]> ch). split; [done|].
      assert (ch = children) as -> by congruence.
      rewrite lookup_insert_ne; [done|]. intros ->. congruence.
Qed.

(** A scan that goes over the name of a waiting file moves it. *)
Lemma organize_entries_moves names name data root out :
  path_append base_path name ≠ self_path → extension name ≠ "" →
  rename_fault os name (target_folder g name) = None →
  (awaits g name data root ∧ name ∈ names) ∨ arrived g name data root →
  arrived g name data (entries names (root, out)).1.
Proof.
  intros Hself Hext Hfault. revert root out.
  induction names as [|n names IH]; intros root out [[Hw Hin]|Harr].
  - by apply elem_of_nil in Hin.
  - done.
  - rewrite organize_entries_cons.
    destruct (decide (n = name)) as [->|Hne].
    + pose proof (awaits_entry_self name data root out Hw Hself Hext Hfault)
        as [Harr _].
      destruct (entry (root, out) name) as [root' out']. apply IH. by right.
    + pose proof (awaits_entry_other name data root out n Hw Hne) as Hw'.
      apply elem_of_cons in Hin as [->|Hin]; [done|].
      destruct (entry (root, out) n) as [root' out']. apply IH. by left.
  - rewrite organize_entries_cons.
    pose proof (arrived_entry name data root out n Harr) as Harr'.
    destruct (entry (root, out) n) as [root' out']. apply IH. by right.
Qed.

End outcomes.

(** ** The claims about [organize] *)

Lemma run_eta (run : gmap string node * list event * outcome) :
  run = (run.1.1, run.1.2, run.2).
Proof. by destruct run as [[? ?] ?]. Qed.

(** C1, as amended: a regular file of the directory, other than the
    running program, with a non-empty extension, is moved by a run that
    completes: if nothing was at [root/c/f] before the run, if the name
    [c] of its category was free or a directory, and if the system does
    not refuse the renaming, then after the run the file is at
    [root/c/f], with its contents, and no longer at [root/f]. *)
Theorem organize_moves_file os base_path self_path root name data root' out :
  root !! name = Some (File data) →
  path_append base_path name ≠ self_path →
  extension name ≠ "" →
  exists_in root (classify (extension name)) name = false →
  root !! classify (extension name) = None
  ∨ is_directory root (classify (extension name)) = true →
  rename_fault os name (classify (extension name)) = None →
  organize os base_path self_path root = (root', out, Returned) →
  root' !! name = None ∧
  ∃ children, root' !! classify (extension name) = Some (Dir children) ∧
              children !! name = Some (File data).
Proof.
  intros Hn Hself Hext Hfree Hfolder Hfault Hrun.
  assert (Hret : (organize_files os g_extension_to_folder_map base_path self_path
                    root).2 = Returned)
    by (by unfold organize in Hrun; rewrite Hrun).
  apply organize_files_returned in Hret as (Hret & _).
  apply organize_run_returned in Hrun.
  destruct (ensure_folders os base_path root) as [root0 r0] eqn:Hens.
  cbn [fst snd] in *. subst r0.
  assert (root' = (organize_entries os g_extension_to_folder_map base_path
                     self_path (map_to_list root0).*1 (root0, [])).1) as ->
    by by rewrite <- Hrun.
  assert (Hn0 : root0 !! name = Some (File data)).
  { change root0 with (root0, Returned).1. rewrite <- Hens.
    by apply ensure_folders_loop_keeps. }
  apply (organize_entries_moves os g_extension_to_folder_map base_path self_path
           _ name data); try done.
  left. split; [|apply elem_of_entry_names; by rewrite Hn0].
  split; [done|]. change (target_folder g_extension_to_folder_map name)
    with (classify (extension name)).
  pose proof (ensure_folders_provisions os base_path root
                (classify (extension name))) as Hdir.
  rewrite Hens in Hdir. specialize (Hdir eq_refl (get_target_folder_is_folder _) Hfolder).
  unfold is_directory in Hdir. cbn [fst] in Hdir.
  destruct (root0 !! classify (extension name)) as [[d|children|]|] eqn:Hc; try done.
  exists children. split; [done|].
  assert (Hc' : (ensure_folders_loop os base_path (folder_names FOLDER_MAP) root).1
                !! classify (extension name) = Some (Dir children)).
  { unfold ensure_folders in Hens. by rewrite Hens. }
  apply ensure_folders_loop_adds in Hc' as [Hc'|(_ & _ & [= ->])]; [|done].
  unfold exists_in in Hfree. rewrite Hc' in Hfree.
  apply bool_decide_eq_false in Hfree. by apply eq_None_not_Some.
Qed.

Lemma organize_moves_file_witness :
  (organize no_faults "/d" "/bin/organize" {[ "b.mp3" := File "B" ]}).1.1
  !! "b.mp3" = None ∧
  ∃ children,
    (organize no_faults "/d" "/bin/organize" {[ "b.mp3" := File "B" ]}).1.1
    !! classify (extension "b.mp3") = Some (Dir children) ∧
    children !! "b.mp3" = Some (File "B").
Proof.
  apply (organize_moves_file no_faults "/d" "/bin/organize"
           {[ "b.mp3" := File "B" ]} "b.mp3" "B" _
           (organize no_faults "/d" "/bin/organize" {[ "b.mp3" := File "B" ]}).1.2).
  - reflexivity.
  - discriminate.
  - discriminate.
  - reflexivity.
  - left. reflexivity.
  - reflexivity.
  - assert (Hret : (organize no_faults "/d" "/bin/organize"
                      {[ "b.mp3" := File "B" ]}).2 = Returned)
      by (vm_compute; reflexivity).
    rewrite <- Hret. apply run_eta.
Defined.

(** C1 as stated fails: the running program, when it is a file of the
    directory, has an extension and nothing at its target, and stays
    where it is. *)
Lemma organize_leaves_itself :
  ¬ (∀ os base_path self_path root name data root' out,
       root !! name = Some (File data) →
       extension name ≠ "" →
       exists_in root (classify (extension name)) name = false →
       organize os base_path self_path root = (root', out, Returned) →
       root' !! name = None ∧
       exists_in root' (classify (extension name)) name = true).
Proof.
  intros H.
  assert (Hret : (organize no_faults "/d" "/d/organize.exe"
                    {[ "organize.exe" := File "MZ" ]}).2 = Returned)
    by (vm_compute; reflexivity).
  destruct (H no_faults "/d" "/d/organize.exe" {[ "organize.exe" := File "MZ" ]}
              "organize.exe" "MZ"
              (organize no_faults "/d" "/d/organize.exe"
                 {[ "organize.exe" := File "MZ" ]}).1.1
              (organize no_faults "/d" "/d/organize.exe"
                 {[ "organize.exe" := File "MZ" ]}).1.2) as [Hgone _].
  - reflexivity.
  - discriminate.
  - reflexivity.
  - rewrite <- Hret. apply run_eta.
  - vm_compute in Hgone. discriminate Hgone.
Qed.

(** C2, as amended: when something is already at [root/c/f] for a
    regular file [f] of the directory, a run leaves [f] where it is with
    its contents and leaves what is at [root/c/f] as it is.  When the
    existence test of the target answers, the run prints no error about
    [f]: the only line it can print about [f] is the notice naming [f]
    and [c], and it prints it when it completes and [f] is not the
    running program itself (the excluded path) and has a non-empty
    extension.  When the system fails the existence test, the error line
    with the system's text takes the place of the notice. *)
Theorem organize_skips_collision os base_path self_path root name data
    children x root' out r :
  root !! name = Some (File data) →
  root !! classify (extension name) = Some (Dir children) →
  children !! name = Some x →
  organize os base_path self_path root = (root', out, r) →
  root' !! name = Some (File data) ∧
  (∃ children', root' !! classify (extension name) = Some (Dir children') ∧
                children' !! name = Some x) ∧
  (stat_fault os name (classify (extension name)) = None →
   (∀ e, e ∈ out → subject e = Some name →
         e = Skipping name (classify (extension name))) ∧
   (r = Returned → path_append base_path name ≠ self_path →
    extension name ≠ "" →
    Skipping name (classify (extension name)) ∈ out)) ∧
  (∀ what, stat_fault os name (classify (extension name)) = Some what →
   (∀ e, e ∈ out → subject e = Some name → e = ErrorMoving name what) ∧
   (r = Returned → path_append base_path name ≠ self_path →
    extension name ≠ "" →
    ErrorMoving name what ∈ out)).
Proof.
  intros Hn Hf Hx Hrun.
  assert (Hcol0 : collides g_extension_to_folder_map name data x
                    (ensure_folders os base_path root).1).
  { split; [by apply ensure_folders_loop_keeps|].
    exists children. split; [|done]. by apply ensure_folders_loop_keeps. }
  apply organize_run in Hrun as (seen & _ & Hscan & Hfull).
  destruct (organize_entries_collision os g_extension_to_folder_map base_path
              self_path seen name data x _ [] Hcol0)
    as [[Hn' Hf'] Hlines].
  { by intros e ?%elem_of_nil. }
  rewrite <- Hscan in Hn', Hf', Hlines. cbn [fst snd] in *.
  change (target_folder g_extension_to_folder_map name)
    with (classify (extension name)) in *.
  assert (Hline : r = Returned → path_append base_path name ≠ self_path →
                  extension name ≠ "" →
                  collision_line os name (classify (extension name)) ∈ out).
  { intros Hr Hself Hext.
    pose proof (organize_entries_notice os g_extension_to_folder_map base_path
                  self_path seen name data x _ [] Hcol0 Hself Hext) as Hnotice.
    rewrite <- Hscan in Hnotice. apply Hnotice. left.
    rewrite (Hfull Hr). apply elem_of_entry_names.
    destruct Hcol0 as [-> _]. done. }
  unfold collision_line in Hlines, Hline.
  split_and!; try done.
  - intros Hstat. by rewrite Hstat in Hlines, Hline.
  - intros what Hstat. by rewrite Hstat in Hlines, Hline.
Qed.

Lemma organize_skips_collision_witness :
  (organize no_faults "/d" "/bin/organize"
     {[ "a.txt" := File "new";
        "Documents" := Dir {[ "a.txt" := File "old" ]} ]}).1.1 !! "a.txt"
  = Some (File "new") ∧
  Skipping "a.txt" "Documents"
  ∈ (organize no_faults "/d" "/bin/organize"
       {[ "a.txt" := File "new";
          "Documents" := Dir {[ "a.txt" := File "old" ]} ]}).1.2.
Proof.
  destruct (organize_skips_collision no_faults "/d" "/bin/organize"
              {[ "a.txt" := File "new";
                 "Documents" := Dir {[ "a.txt" := File "old" ]} ]}
              "a.txt" "new" {[ "a.txt" := File "old" ]} (File "old")
              (organize no_faults "/d" "/bin/organize"
                 {[ "a.txt" := File "new";
                    "Documents" := Dir {[ "a.txt" := File "old" ]} ]}).1.1
              (organize no_faults "/d" "/bin/organize"
                 {[ "a.txt" := File "new";
                    "Documents" := Dir {[ "a.txt" := File "old" ]} ]}).1.2
              (organize no_faults "/d" "/bin/organize"
                 {[ "a.txt" := File "new";
                    "Documents" := Dir {[ "a.txt" := File "old" ]} ]}).2)
    as (Hstay & _ & Hnotice & _).
  - reflexivity.
  - reflexivity.
  - reflexivity.
  - apply run_eta.
  - split; [exact Hstay|].
    destruct (Hnotice eq_refl) as [_ Hprinted].
    apply Hprinted; [by vm_compute | discriminate | discriminate].
Defined.

(** C2 as stated fails: the existence test of the target is inside the
    [try] block, and when the system fails it (the folder of the
    category cannot be searched, say) for a file that got past the two
    skips and whose target exists, the run prints the error line for the
    file and no notice. *)
Lemma organize_collision_reported_as_error :
  ¬ (∀ os base_path self_path root name data children x root' out,
       root !! name = Some (File data) →
       path_append base_path name ≠ self_path →
       extension name ≠ "" →
       root !! classify (extension name) = Some (Dir children) →
       children !! name = Some x →
       organize os base_path self_path root = (root', out, Returned) →
       Skipping name (classify (extension name)) ∈ out ∧
       ∀ what, ErrorMoving name what ∉ out).
Proof.
  intros H.
  set (os := {| mkdir_fault := λ _, None;
                rename_fault := λ _ _, None;
                stat_fault := λ _ _, Some "Permission denied";
                open_fault := None;
                scan_fault := λ _, None;
                end_fault := None |}).
  set (root := ({[ "a.txt" := File "new";
                   "Documents" := Dir {[ "a.txt" := File "old" ]} ]}
                : gmap string node)).
  assert (Hret : (organize os "/d" "/bin/organize" root).2 = Returned)
    by (vm_compute; reflexivity).
  assert (Hout : (organize os "/d" "/bin/organize" root).1.2
                 = [ErrorMoving "a.txt" "Permission denied"])
    by (vm_compute; reflexivity).
  destruct (H os "/d" "/bin/organize" root "a.txt" "new"
              {[ "a.txt" := File "old" ]} (File "old")
              (organize os "/d" "/bin/organize" root).1.1
              (organize os "/d" "/bin/organize" root).1.2) as [Hin _].
  - reflexivity.
  - discriminate.
  - discriminate.
  - reflexivity.
  - reflexivity.
  - rewrite <- Hret. apply run_eta.
  - rewrite Hout in Hin. apply list_elem_of_singleton in Hin. discriminate Hin.
Qed.



(** C10: a name that starts with a period and has no other period (such
    as [.bashrc]) does contain a period, yet its extension is empty; a
    regular file of that name is left in place by a run, and no line of
    the run is about it. *)
Theorem organize_leaves_dotfile os base_path self_path root rest data
    root' out r :
  has_dot rest = false →
  root !! String "."%char rest = Some (File data) →
  organize os base_path self_path root = (root', out, r) →
  has_dot (String "."%char rest) = true ∧
  extension (String "."%char rest) = "" ∧
  root' !! String "."%char rest = Some (File data) ∧
  ∀ e, e ∈ out → subject e ≠ Some (String "."%char rest).
Proof.
  intros Hrest Hn Hrun. split; [done|].
  pose proof (extension_leading_dot rest Hrest) as Hext. split; [done|].
  pose proof (organize_files_leaves os g_extension_to_folder_map base_path
                self_path root _ data Hn Hext) as H.
  unfold organize in Hrun. by rewrite Hrun in H.
Qed.

Lemma organize_leaves_dotfile_witness :
  extension ".bashrc" = "" ∧
  (organize no_faults "/d" "/bin/organize"
     {[ ".bashrc" := File "rc"; "a.txt" := File "A" ]}).1.1 !! ".bashrc"
  = Some (File "rc").
Proof.
  destruct (organize_leaves_dotfile no_faults "/d" "/bin/organize"
              {[ ".bashrc" := File "rc"; "a.txt" := File "A" ]} "bashrc" "rc"
              (organize no_faults "/d" "/bin/organize"
                 {[ ".bashrc" := File "rc"; "a.txt" := File "A" ]}).1.1
              (organize no_faults "/d" "/bin/organize"
                 {[ ".bashrc" := File "rc"; "a.txt" := File "A" ]}).1.2
              (organize no_faults "/d" "/bin/organize"
                 {[ ".bashrc" := File "rc"; "a.txt" := File "A" ]}).2)
    as (_ & Hext & Hstay & _).
  - reflexivity.
  - reflexivity.
  - apply run_eta.
  - by split.
Defined.

(** ** The scenarios of the specification *)

(** A directory with [a.txt], [b.mp3], [c.unknownext] and [README]: the
    first three go to Documents, Music and Others, [README] stays, and
    nothing is printed by the scan. *)
Example scenario_sorting :
  let run := organize no_faults "/d" "/bin/organize"
               {[ "a.txt" := File "A"; "b.mp3" := File "B";
                  "c.unknownext" := File "C"; "README" := File "R" ]} in
  run.2 = Returned ∧ run.1.2 = [] ∧
  (exists_in run.1.1 "Documents" "a.txt" = true ∧ run.1.1 !! "a.txt" = None) ∧
  (exists_in run.1.1 "Music" "b.mp3" = true ∧ run.1.1 !! "b.mp3" = None) ∧
  (exists_in run.1.1 "Others" "c.unknownext" = true
   ∧ run.1.1 !! "c.unknownext" = None) ∧
  run.1.1 !! "README" = Some (File "R").
Proof. vm_compute. by split_and!. Qed.

(** A directory with [Documents/a.txt] and [a.txt]: [a.txt] stays, the
    skip is printed, and [Documents/a.txt] is as it was. *)
Example scenario_collision :
  let run := organize no_faults "/d" "/bin/organize"
               {[ "a.txt" := File "new";
                  "Documents" := Dir {[ "a.txt" := File "old" ]} ]} in
  run.2 = Returned ∧ run.1.2 = [Skipping "a.txt" "Documents"] ∧
  run.1.1 !! "a.txt" = Some (File "new") ∧
  run.1.1 !! "Documents" = Some (Dir {[ "a.txt" := File "old" ]}).
Proof. vm_compute. by split_and!. Qed.

(** The command line: usage without arguments or with a help flag, and
    the two fatal path errors. *)
Example scenario_command_line :
  let w := {| os_faults := no_faults; current_path := "/home";
              status := λ p, if decide (p = "/etc/passwd") then NonDirectory
                             else NotFound;
              weakly_canonical := λ p, p |} in
  main w ["organize"] = (0%Z, [Help], None) ∧
  main w ["organize"; "-H"] = (0%Z, [Help], None) ∧
  main w ["organize"; " '/missing' "] = (1%Z, [NotExist "/missing"], None) ∧
  main w ["organize"; "/etc/passwd"] = (1%Z, [NotDirectory "/etc/passwd"], None) ∧
  main w ["organize"; "-c"] = (1%Z, [NotExist "/home"], None).
Proof. vm_compute. by split_and!. Qed.

(** * Further properties of the program *)

(** ** What a run never does *)

Section conservation.
Context (os : faults) (g : gmap string string) (base_path self_path : string).

(** The folders the index answers are category names. *)
Hypothesis g_folders : ∀ e, get_target_folder g e ∈ folder_names FOLDER_MAP.

Local Abbreviation entry := (organize_entry os g base_path self_path).
Local Abbreviation entries := (organize_entries os g base_path self_path).
Local Abbreviation can_move := (movable os g base_path self_path).

(** An entry is movable exactly when it is a waiting file that got past
    the two skips and whose renaming the system does not refuse. *)
Lemma movable_awaits root name :
  can_move root name = true →
  ∃ data, awaits g name data root ∧
          path_append base_path name ≠ self_path ∧ extension name ≠ "" ∧
          rename_fault os name (target_folder g name) = None.
Proof.
  intros Hmove.
  pose proof (candidate_movable _ _ _ _ _ _ Hmove) as Hc.
  apply candidate_spec in Hc as ([data Hn] & Hself & Hext).
  unfold movable, exists_in, is_directory in Hmove.
  apply andb_true_iff in Hmove as [[[_ Hex]%andb_true_iff Hdir]%andb_true_iff Hfault].
  apply negb_true_iff in Hex. apply bool_decide_eq_true in Hfault.
  destruct (root !! target_folder g name) as [[d|children|]|] eqn:Hf; try done.
  exists data. split_and!; try done. split; [done|].
  exists children. split; [done|].
  apply bool_decide_eq_false in Hex. by apply eq_None_not_Some.
Qed.

(** The body keeps a regular file, or delivers it to its folder. *)
Lemma organize_entry_conserves name data root out n :
  root !! name = Some (File data) ∨ arrived g name data root →
  (entry (root, out) n).1 !! name = Some (File data)
  ∨ arrived g name data (entry (root, out) n).1.
Proof.
  intros [Hn|Harr]; [|right; by apply arrived_entry].
  destruct (organize_entry_lookup os g base_path self_path root out n name)
    as [->|[(-> & Hmove & _)|(_ & _ & _ & d & ch & _ & Hdir & _)]];
    [by left| |congruence].
  right. apply movable_awaits in Hmove as (data' & Hw & Hself & Hext & Hfault).
  assert (data' = data) as -> by (destruct Hw as [Hw _]; congruence).
  by apply awaits_entry_self.
Qed.

Lemma organize_entries_conserves names name data root out :
  root !! name = Some (File data) ∨ arrived g name data root →
  (entries names (root, out)).1 !! name = Some (File data)
  ∨ arrived g name data (entries names (root, out)).1.
Proof.
  revert root out. induction names as [|n names IH]; intros root out H; [done|].
  rewrite organize_entries_cons.
  pose proof (organize_entry_conserves name data root out n H) as H'.
  destruct (entry (root, out) n) as [root' out']. by apply IH.
Qed.

(** The body leaves in place whatever a sub-directory holds. *)
Lemma organize_entry_keeps_inside folder children name x root out n :
  root !! folder = Some (Dir children) → children !! name = Some x →
  ∃ children', (entry (root, out) n).1 !! folder = Some (Dir children') ∧
               children' !! name = Some x.
Proof.
  intros Hf Hx.
  destruct (organize_entry_lookup os g base_path self_path root out n folder)
    as [->|[(Heq & Hmove & _)|(Heq & _ & _ & d & ch & _ & Hdir & Hfree & ->)]].
  - by exists children.
  - apply candidate_movable, candidate_spec in Hmove as ([d Hd] & _).
    rewrite <- Heq in Hd. congruence.
  - exists (<[n := File d]> ch). split; [done|].
    assert (ch = children) as -> by congruence.
    rewrite lookup_insert_ne; [done|]. intros ->. congruence.
Qed.

Lemma organize_entries_keeps_inside names folder children name x root out :
  root !! folder = Some (Dir children) → children !! name = Some x →
  ∃ children', (entries names (root, out)).1 !! folder = Some (Dir children') ∧
               children' !! name = Some x.
Proof.
  revert root out children.
  induction names as [|n names IH]; intros root out children Hf Hx.
  { by exists children. }
  rewrite organize_entries_cons.
  destruct (organize_entry_keeps_inside folder children name x root out n Hf Hx)
    as (children' & Hf' & Hx').
  destruct (entry (root, out) n) as [root' out']. by apply (IH _ _ children').
Qed.

(** The body does not touch an entry that is neither a regular file nor
    named like a category. *)
Lemma organize_entry_keeps_other name x root out n :
  root !! name = Some x → (∀ data, x ≠ File data) →
  name ∉ folder_names FOLDER_MAP →
  (entry (root, out) n).1 !! name = Some x.
Proof.
  intros Hn Hx Hname.
  destruct (organize_entry_lookup os g base_path self_path root out n name)
    as [->|[(-> & Hmove & _)|(Heq & _)]]; [done| |].
  - apply candidate_movable, candidate_spec in Hmove as ([d Hd] & _).
    destruct (Hx d). congruence.
  - destruct Hname. rewrite Heq. apply g_folders.
Qed.

Lemma organize_entries_keeps_other names name x root out :
  root !! name = Some x → (∀ data, x ≠ File data) →
  name ∉ folder_names FOLDER_MAP →
  (entries names (root, out)).1 !! name = Some x.
Proof.
  intros Hn Hx Hname. revert root out Hn.
  induction names as [|n names IH]; intros root out Hn; [done|].
  rewrite organize_entries_cons.
  pose proof (organize_entry_keeps_other name x root out n Hn Hx Hname) as Hn'.
  destruct (entry (root, out) n) as [root' out']. by apply IH.
Qed.

(** The body keeps the program itself and prints nothing about it. *)
Lemma organize_entries_keeps_itself names name data root out :
  path_append base_path name = self_path →
  root !! name = Some (File data) →
  (∀ e, e ∈ out → subject e ≠ Some name) →
  (entries names (root, out)).1 !! name = Some (File data) ∧
  ∀ e, e ∈ (entries names (root, out)).2 → subject e ≠ Some name.
Proof.
  intros Hself Hn Hout.
  apply (organize_entries_ind os g base_path self_path
           (λ r o, r !! name = Some (File data) ∧ ∀ e, e ∈ o → subject e ≠ Some name));
    [done|].
  clear Hn Hout. intros n r o _ [Hn Hout]. split.
  - destruct (organize_entry_lookup os g base_path self_path r o n name)
      as [->|[(-> & Hmove & _)|(_ & _ & _ & d & ch & _ & Hdir & _)]];
      [done| |congruence].
    by apply candidate_movable, candidate_spec in Hmove as (_ & Hne & _).
  - intros e Hin.
    destruct (organize_entry_log os g base_path self_path r o n)
      as (lines & Heq & Hlines). rewrite Heq in Hin.
    apply elem_of_app in Hin as [Hin|Hin]; [by apply Hout|].
    destruct (Hlines e Hin) as [-> Hcand]. intros [= ->].
    by apply candidate_spec in Hcand as (_ & Hne & _).
Qed.

End conservation.

(** X1: the entry whose path is the path [organize_files] is told to
    exclude ([main] passes the resolved form of [argv[0]]), when it is a
    regular file of the directory, is left where it is with its contents
    by a run, however the run ends, and no line of the run is about
    it. *)
Theorem organize_leaves_program os base_path self_path root name data
    root' out r :
  root !! name = Some (File data) →
  path_append base_path name = self_path →
  organize os base_path self_path root = (root', out, r) →
  root' !! name = Some (File data) ∧
  ∀ e, e ∈ out → subject e ≠ Some name.
Proof.
  intros Hn Hself Hrun.
  pose proof (ensure_folders_loop_keeps os base_path (folder_names FOLDER_MAP)
                root name _ Hn) as Hn0.
  fold (ensure_folders os base_path root) in Hn0.
  apply organize_run in Hrun as (seen & _ & Hscan & _).
  pose proof (organize_entries_keeps_itself os g_extension_to_folder_map
                base_path self_path seen name data _ [] Hself Hn0) as H.
  rewrite <- Hscan in H. apply H. by intros e ?%elem_of_nil.
Qed.

Lemma organize_leaves_program_witness :
  (organize no_faults "/d" "/d/organize.exe"
     {[ "organize.exe" := File "MZ"; "a.txt" := File "A" ]}).1.1 !! "organize.exe"
  = Some (File "MZ").
Proof.
  apply (organize_leaves_program no_faults "/d" "/d/organize.exe"
           {[ "organize.exe" := File "MZ"; "a.txt" := File "A" ]}
           "organize.exe" "MZ" _
           (organize no_faults "/d" "/d/organize.exe"
              {[ "organize.exe" := File "MZ"; "a.txt" := File "A" ]}).1.2
           (organize no_faults "/d" "/d/organize.exe"
              {[ "organize.exe" := File "MZ"; "a.txt" := File "A" ]}).2).
  - reflexivity.
  - reflexivity.
  - apply run_eta.
Defined.

(** X2: a run loses no file: every regular file of the directory is,
    after the run and however it ends, either still in the directory or
    in the folder of its category, under its name and with its contents. *)
Theorem organize_conserves_files os base_path self_path root name data
    root' out r :
  root !! name = Some (File data) →
  organize os base_path self_path root = (root', out, r) →
  root' !! name = Some (File data)
  ∨ (root' !! name = None ∧
     ∃ children, root' !! classify (extension name) = Some (Dir children) ∧
                 children !! name = Some (File data)).
Proof.
  intros Hn Hrun.
  pose proof (ensure_folders_loop_keeps os base_path (folder_names FOLDER_MAP)
                root name _ Hn) as Hn0.
  fold (ensure_folders os base_path root) in Hn0.
  apply organize_run in Hrun as (seen & _ & Hscan & _).
  pose proof (organize_entries_conserves os g_extension_to_folder_map
                base_path self_path seen name data _ [] (or_introl Hn0)) as H.
  by rewrite <- Hscan in H.
Qed.

Lemma organize_conserves_files_witness :
  (organize no_faults "/d" "/bin/organize"
     {[ "a.txt" := File "A"; "Others" := File "x"; "q.zzz" := File "Q" ]}).1.1
  !! "q.zzz" = Some (File "Q")
  ∨ ((organize no_faults "/d" "/bin/organize"
        {[ "a.txt" := File "A"; "Others" := File "x"; "q.zzz" := File "Q" ]}).1.1
     !! "q.zzz" = None ∧
     ∃ children,
       (organize no_faults "/d" "/bin/organize"
          {[ "a.txt" := File "A"; "Others" := File "x"; "q.zzz" := File "Q" ]}).1.1
       !! classify (extension "q.zzz") = Some (Dir children) ∧
       children !! "q.zzz" = Some (File "Q")).
Proof.
  apply (organize_conserves_files no_faults "/d" "/bin/organize"
           {[ "a.txt" := File "A"; "Others" := File "x"; "q.zzz" := File "Q" ]}
           "q.zzz" "Q" _
           (organize no_faults "/d" "/bin/organize"
              {[ "a.txt" := File "A"; "Others" := File "x";
                 "q.zzz" := File "Q" ]}).1.2
           (organize no_faults "/d" "/bin/organize"
              {[ "a.txt" := File "A"; "Others" := File "x";
                 "q.zzz" := File "Q" ]}).2).
  - reflexivity.
  - apply run_eta.
Defined.

(** X3: a run never deletes or replaces what a sub-directory of the
    directory holds: whatever was at [root/folder/name] before the run is
    there after it, however the run ends. *)
Theorem organize_keeps_folder_contents os base_path self_path root folder
    children name x root' out r :
  root !! folder = Some (Dir children) →
  children !! name = Some x →
  organize os base_path self_path root = (root', out, r) →
  ∃ children', root' !! folder = Some (Dir children') ∧
               children' !! name = Some x.
Proof.
  intros Hf Hx Hrun.
  pose proof (ensure_folders_loop_keeps os base_path (folder_names FOLDER_MAP)
                root folder _ Hf) as Hf0.
  fold (ensure_folders os base_path root) in Hf0.
  apply organize_run in Hrun as (seen & _ & Hscan & _).
  pose proof (organize_entries_keeps_inside os g_extension_to_folder_map
                base_path self_path seen folder children name x _ [] Hf0 Hx)
    as H.
  by rewrite <- Hscan in H.
Qed.

Lemma organize_keeps_folder_contents_witness :
  ∃ children',
    (organize no_faults "/d" "/bin/organize"
       {[ "b.mp3" := File "B";
          "Music" := Dir {[ "old.mp3" := File "O"; "sub" := Dir ∅ ]} ]}).1.1
    !! "Music" = Some (Dir children') ∧
    children' !! "old.mp3" = Some (File "O").
Proof.
  apply (organize_keeps_folder_contents no_faults "/d" "/bin/organize"
           {[ "b.mp3" := File "B";
              "Music" := Dir {[ "old.mp3" := File "O"; "sub" := Dir ∅ ]} ]}
           "Music" {[ "old.mp3" := File "O"; "sub" := Dir ∅ ]} "old.mp3" (File "O")
           _
           (organize no_faults "/d" "/bin/organize"
              {[ "b.mp3" := File "B";
                 "Music" := Dir {[ "old.mp3" := File "O"; "sub" := Dir ∅ ]} ]}).1.2
           (organize no_faults "/d" "/bin/organize"
              {[ "b.mp3" := File "B";
                 "Music" := Dir {[ "old.mp3" := File "O"; "sub" := Dir ∅ ]} ]}).2).
  - reflexivity.
  - reflexivity.
  - apply run_eta.
Defined.

(** X4: a run does not descend into, move or alter the other entries: an
    entry that is neither a regular file nor named like a category
    (a sub-directory, a special file) is after the run what it was
    before; and the only names a run adds to the directory are category
    names. *)
Theorem organize_keeps_other_entries os base_path self_path root root' out r :
  organize os base_path self_path root = (root', out, r) →
  (∀ name x, root !! name = Some x → (∀ data, x ≠ File data) →
             name ∉ folder_names FOLDER_MAP → root' !! name = Some x) ∧
  (∀ name, is_Some (root' !! name) →
           is_Some (root !! name) ∨ name ∈ folder_names FOLDER_MAP).
Proof.
  intros Hrun. apply organize_run in Hrun as (seen & _ & Hscan & _). split.
  - intros name x Hn Hx Hname.
    pose proof (ensure_folders_loop_keeps os base_path (folder_names FOLDER_MAP)
                  root name _ Hn) as Hn0.
    fold (ensure_folders os base_path root) in Hn0.
    pose proof (organize_entries_keeps_other os g_extension_to_folder_map
                  base_path self_path get_target_folder_is_folder
                  seen name x _ [] Hn0 Hx Hname) as H.
    by rewrite <- Hscan in H.
  - intros name Hn'.
    assert (Hn0 : is_Some ((ensure_folders os base_path root).1 !! name)).
    { apply (organize_entries_no_new os g_extension_to_folder_map base_path
               self_path seen _ []).
      by rewrite <- Hscan. }
    destruct Hn0 as [x Hx].
    apply ensure_folders_loop_adds in Hx as [Hx|(_ & Hin & _)]; [left|by right].
    by rewrite Hx.
Qed.


Lemma organize_keeps_other_entries_witness :
  (organize no_faults "/d" "/bin/organize"
     {[ "a.txt" := File "A"; "stuff" := Dir {[ "x.txt" := File "X" ]} ]}).1.1
  !! "stuff" = Some (Dir {[ "x.txt" := File "X" ]}).
Proof.
  destruct (organize_keeps_other_entries no_faults "/d" "/bin/organize"
              {[ "a.txt" := File "A"; "stuff" := Dir {[ "x.txt" := File "X" ]} ]}
              (organize no_faults "/d" "/bin/organize"
                 {[ "a.txt" := File "A";
                    "stuff" := Dir {[ "x.txt" := File "X" ]} ]}).1.1
              (organize no_faults "/d" "/bin/organize"
                 {[ "a.txt" := File "A";
                    "stuff" := Dir {[ "x.txt" := File "X" ]} ]}).1.2
              (organize no_faults "/d" "/bin/organize"
                 {[ "a.txt" := File "A";
                    "stuff" := Dir {[ "x.txt" := File "X" ]} ]}).2)
    as [Hkeep _].
  - apply run_eta.
  - apply Hkeep.
    + reflexivity.
    + discriminate.
    + apply (bool_decide_unpack _). vm_compute. exact I.
Defined.

(** ** The outcome of a run for one file *)

Section verdicts.
Context (os : faults) (base_path self_path : string).

Local Abbreviation g := g_extension_to_folder_map.
Local Abbreviation entry := (organize_entry os g base_path self_path).
Local Abbreviation entries := (organize_entries os g base_path self_path).
Local Abbreviation can_move := (movable os g base_path self_path).
Local Abbreviation notice := (notice_for os g base_path self_path).

(** A regular file that cannot be moved is still there, unchanged, after
    the scan. *)
Lemma organize_entries_keeps_stuck_file names root out n data :
  can_move root n = false → root !! n = Some (File data) →
  (entries names (root, out)).1 !! n = Some (File data).
Proof.
  revert root out. induction names as [|m names IH]; intros root out Hst Hn;
    [done|].
  rewrite organize_entries_cons.
  assert (Hst' : can_move (entry (root, out) m).1 n = false).
  { apply not_true_is_false. intros [? _]%movable_entry. congruence. }
  assert (Hn' : (entry (root, out) m).1 !! n = Some (File data)).
  { destruct (organize_entry_lookup os g base_path self_path root out m n)
      as [->|[(-> & Hmove & _)|(_ & _ & _ & d & ch & _ & Hdir & _)]];
      [done|congruence|congruence]. }
  destruct (entry (root, out) m) as [root' out']. by apply IH.
Qed.

(** The lines of a scan are the lines of its entries. *)
Lemma organize_entries_lines names root line :
  line ∈ (entries names (root, [])).2 ↔
  ∃ n, n ∈ names ∧ line ∈ notice root n.
Proof.
  rewrite (organize_entries_console os g base_path self_path classify_plain).
  rewrite app_nil_l, list_elem_of_bind.
  split; intros (n & H1 & H2); by exists n.
Qed.

(** The lines for an entry are about that entry. *)
Lemma notice_for_subject root n line :
  line ∈ notice root n → subject line = Some n.
Proof.
  unfold notice_for.
  destruct (organize_entry_log os g base_path self_path root [] n)
    as (lines & -> & Hlines).
  rewrite app_nil_l. intros Hin. by destruct (Hlines line Hin).
Qed.


(** Provisioning changes nothing to what exists below a category name. *)
Lemma ensure_folders_exists_in root folder name :
  exists_in (ensure_folders os base_path root).1 folder name
  = exists_in root folder name.
Proof.
  unfold exists_in, ensure_folders.
  destruct (root !! folder) as [x|] eqn:Hf.
  - by rewrite (ensure_folders_loop_keeps os base_path _ root folder x Hf).
  - destruct ((ensure_folders_loop os base_path (folder_names FOLDER_MAP) root).1
               !! folder) as [x|] eqn:Hx; [|done].
    apply ensure_folders_loop_adds in Hx as [?|(_ & _ & ->)]; [congruence|].
    apply bool_decide_eq_false. rewrite lookup_empty. by intros [? ?].
Qed.

Lemma ensure_folders_fs_exists root folder name :
  fs_exists os (ensure_folders os base_path root).1 folder name
  = fs_exists os root folder name.
Proof. unfold fs_exists. by rewrite ensure_folders_exists_in. Qed.

(** What a completed scan of the whole directory does with a regular file
    that got past the two skips: its line, if it has one, is printed;
    nothing else is printed about it; it is delivered if it was movable
    and otherwise stays. *)
Lemma organize_entries_verdict root name data :
  root !! name = Some (File data) →
  (∀ line, line ∈ (entries (map_to_list root).*1 (root, [])).2 →
           subject line = Some name → line ∈ notice root name) ∧
  (∀ line, line ∈ notice root name →
           line ∈ (entries (map_to_list root).*1 (root, [])).2) ∧
  (can_move root name = true →
   arrived g name data (entries (map_to_list root).*1 (root, [])).1) ∧
  (can_move root name = false →
   (entries (map_to_list root).*1 (root, [])).1 !! name = Some (File data)).
Proof.
  intros Hn.
  assert (Hin : name ∈ (map_to_list root).*1)
    by (apply elem_of_entry_names; by rewrite Hn).
  split_and!.
  - intros line (n & _ & Hline)%organize_entries_lines Hsub.
    pose proof (notice_for_subject _ _ _ Hline) as Hsub'.
    assert (n = name) as -> by congruence. done.
  - intros line Hline. apply organize_entries_lines. by exists name.
  - intros Hmove.
    destruct (movable_awaits os g base_path self_path root name Hmove)
      as (data' & Hw & Hself & Hext & Hfault).
    assert (data' = data) as -> by (destruct Hw as [Hw _]; congruence).
    apply organize_entries_moves; try done. by left.
  - intros Hst. by apply organize_entries_keeps_stuck_file.
Qed.

End verdicts.

(** The line for an entry that got past the two skips and cannot be
    moved: the notice of a collision, or an error. *)
Lemma notice_for_stuck os base_path self_path root n :
  candidate base_path self_path root n = true →
  movable os g_extension_to_folder_map base_path self_path root n = false →
  notice_for os g_extension_to_folder_map base_path self_path root n
  = [Skipping n (classify (extension n))]
  ∨ ∃ what, notice_for os g_extension_to_folder_map base_path self_path root n
            = [ErrorMoving n what].
Proof.
  intros Hc Hst. rewrite notice_for_spec, Hc.
  unfold movable, is_directory in Hst. rewrite Hc in Hst. cbn [andb] in Hst.
  change (target_folder g_extension_to_folder_map n)
    with (classify (extension n)) in *.
  destruct (fs_exists os root (classify (extension n)) n) as [w|[|]] eqn:Hex;
    [right; by exists w|by left|right].
  apply fs_exists_false in Hex. rewrite Hex in Hst. cbn [negb andb] in Hst.
  destruct (rename_fault os n (classify (extension n))) as [w|]; [by exists w|].
  destruct (root !! classify (extension n)) as [[d|ch|]|];
    [by eexists| |by eexists|by eexists].
  by rewrite bool_decide_eq_true_2 in Hst.
Qed.

(** X6: in a run that completes, every regular file of the directory
    that is not the running program and has an extension ends in exactly
    one of two ways: it is in the folder of its category, no longer in
    the directory, and no line is about it; or it is still in the
    directory with its contents, and a line about it was printed, the
    notice of a collision or an error. *)
Theorem organize_outcomes os base_path self_path root name data root' out :
  root !! name = Some (File data) →
  path_append base_path name ≠ self_path →
  extension name ≠ "" →
  organize os base_path self_path root = (root', out, Returned) →
  (root' !! name = None ∧
   (∃ children, root' !! classify (extension name) = Some (Dir children) ∧
                children !! name = Some (File data)) ∧
   ∀ line, line ∈ out → subject line ≠ Some name)
  ∨ (root' !! name = Some (File data) ∧
     (Skipping name (classify (extension name)) ∈ out
      ∨ ∃ what, ErrorMoving name what ∈ out)).
Proof.
  intros Hn Hself Hext Hrun.
  pose proof (ensure_folders_loop_keeps os base_path (folder_names FOLDER_MAP)
                root name _ Hn) as Hn0.
  fold (ensure_folders os base_path root) in Hn0.
  apply organize_run_returned in Hrun as Hscan.
  destruct (organize_entries_verdict os base_path self_path _ name data Hn0)
    as (Honly & Hline & Hmoved & Hstays).
  rewrite <- Hscan in Honly, Hline, Hmoved, Hstays. cbn [fst snd] in *.
  destruct (movable os g_extension_to_folder_map base_path self_path
              (ensure_folders os base_path root).1 name) eqn:Hmove.
  - left. destruct (Hmoved eq_refl) as [Hgone Hthere]. split_and!; try done.
    intros line Hin Hsub.
    pose proof (Honly line Hin Hsub) as Hnot.
    rewrite (notice_for_movable os g_extension_to_folder_map base_path self_path
               _ _ Hmove) in Hnot.
    by apply elem_of_nil in Hnot.
  - right. split; [by apply Hstays|].
    destruct (notice_for_stuck os base_path self_path
                (ensure_folders os base_path root).1 name) as [Heq|[what Heq]];
      try done.
    + apply candidate_spec. split_and!; try done. by exists data.
    + left. apply Hline. rewrite Heq. by left.
    + right. exists what. apply Hline. rewrite Heq. by left.
Qed.

Lemma organize_outcomes_witness :
  (organize no_faults "/d" "/bin/organize"
     {[ "a.txt" := File "A"; "Documents" := File "taken" ]}).1.1 !! "a.txt"
  = Some (File "A") ∧
  ∃ what, ErrorMoving "a.txt" what
          ∈ (organize no_faults "/d" "/bin/organize"
               {[ "a.txt" := File "A"; "Documents" := File "taken" ]}).1.2.
Proof.
  assert (Hret : (organize no_faults "/d" "/bin/organize"
                    {[ "a.txt" := File "A"; "Documents" := File "taken" ]}).2
                 = Returned) by (vm_compute; reflexivity).
  destruct (organize_outcomes no_faults "/d" "/bin/organize"
              {[ "a.txt" := File "A"; "Documents" := File "taken" ]} "a.txt" "A"
              (organize no_faults "/d" "/bin/organize"
                 {[ "a.txt" := File "A"; "Documents" := File "taken" ]}).1.1
              (organize no_faults "/d" "/bin/organize"
                 {[ "a.txt" := File "A"; "Documents" := File "taken" ]}).1.2)
    as [(Hgone & _)|(Hstay & [Hskip|Herr])].
  - reflexivity.
  - discriminate.
  - discriminate.
  - rewrite <- Hret. apply run_eta.
  - vm_compute in Hgone. discriminate Hgone.
  - vm_compute in Hskip. exfalso.
    apply list_elem_of_singleton in Hskip. discriminate Hskip.
  - by split.
Defined.

(** X7: when the system refuses the renaming of a regular file that got
    past the two skips and has nothing at its target, a run that
    completes leaves the file in the directory with its contents and
    prints the error with the system's text for that file. *)
Theorem organize_reports_refusal os base_path self_path root name data what
    root' out :
  root !! name = Some (File data) →
  path_append base_path name ≠ self_path →
  extension name ≠ "" →
  exists_in root (classify (extension name)) name = false →
  rename_fault os name (classify (extension name)) = Some what →
  organize os base_path self_path root = (root', out, Returned) →
  root' !! name = Some (File data) ∧ ErrorMoving name what ∈ out.
Proof.
  intros Hn Hself Hext Hfree Hfault Hrun.
  pose proof (ensure_folders_loop_keeps os base_path (folder_names FOLDER_MAP)
                root name _ Hn) as Hn0.
  fold (ensure_folders os base_path root) in Hn0.
  apply organize_run_returned in Hrun as Hscan.
  destruct (organize_entries_verdict os base_path self_path _ name data Hn0)
    as (_ & Hline & _ & Hstays).
  rewrite <- Hscan in Hline, Hstays. cbn [fst snd] in *.
  assert (Hc : candidate base_path self_path (ensure_folders os base_path root).1
                 name = true).
  { apply candidate_spec. split_and!; try done. by exists data. }
  split.
  - apply Hstays. unfold movable.
    change (target_folder g_extension_to_folder_map name)
      with (classify (extension name)).
    rewrite Hfault, bool_decide_eq_false_2 by done. apply andb_false_r.
  - apply Hline. rewrite notice_for_spec, Hc.
    change (target_folder g_extension_to_folder_map name)
      with (classify (extension name)).
    rewrite ensure_folders_fs_exists.
    rewrite (proj2 (fs_exists_false os _ _ _) Hfree), Hfault. by left.
Qed.

Lemma organize_reports_refusal_witness :
  let os := {| mkdir_fault := λ _, None;
               rename_fault := λ _ _, Some "Permission denied";
               stat_fault := λ _ _, None;
               open_fault := None;
               scan_fault := λ _, None;
               end_fault := None |} in
  (organize os "/d" "/bin/organize" {[ "a.txt" := File "A" ]}).1.1 !! "a.txt"
  = Some (File "A") ∧
  ErrorMoving "a.txt" "Permission denied"
  ∈ (organize os "/d" "/bin/organize" {[ "a.txt" := File "A" ]}).1.2.
Proof.
  intros os.
  assert (Hret : (organize os "/d" "/bin/organize" {[ "a.txt" := File "A" ]}).2
                 = Returned) by (vm_compute; reflexivity).
  apply (organize_reports_refusal os "/d" "/bin/organize"
           {[ "a.txt" := File "A" ]} "a.txt" "A" "Permission denied").
  - reflexivity.
  - discriminate.
  - discriminate.
  - reflexivity.
  - reflexivity.
  - rewrite <- Hret. apply run_eta.
Defined.

(** X8: when the name of a category is taken in the directory by
    something that is not a directory, a run that completes leaves every
    regular file of that category (not the running program, with an
    extension) in the directory and prints an error for it. *)
Theorem organize_reports_occupied_category os base_path self_path root name
    data x root' out :
  root !! name = Some (File data) →
  path_append base_path name ≠ self_path →
  extension name ≠ "" →
  root !! classify (extension name) = Some x →
  (∀ children, x ≠ Dir children) →
  organize os base_path self_path root = (root', out, Returned) →
  root' !! name = Some (File data) ∧ ∃ what, ErrorMoving name what ∈ out.
Proof.
  intros Hn Hself Hext Hx Hnot Hrun.
  pose proof (ensure_folders_loop_keeps os base_path (folder_names FOLDER_MAP)
                root name _ Hn) as Hn0.
  pose proof (ensure_folders_loop_keeps os base_path (folder_names FOLDER_MAP)
                root _ _ Hx) as Hx0.
  fold (ensure_folders os base_path root) in Hn0, Hx0.
  apply organize_run_returned in Hrun as Hscan.
  destruct (organize_entries_verdict os base_path self_path _ name data Hn0)
    as (_ & Hline & _ & Hstays).
  rewrite <- Hscan in Hline, Hstays. cbn [fst snd] in *.
  assert (Hc : candidate base_path self_path (ensure_folders os base_path root).1
                 name = true).
  { apply candidate_spec. split_and!; try done. by exists data. }
  assert (Hst : movable os g_extension_to_folder_map base_path self_path
                  (ensure_folders os base_path root).1 name = false).
  { unfold movable, is_directory.
    change (target_folder g_extension_to_folder_map name)
      with (classify (extension name)).
    rewrite Hx0. destruct x as [d|children|]; [|by destruct (Hnot children)|].
    - by rewrite andb_false_r.
    - by rewrite andb_false_r. }
  split; [by apply Hstays|].
  destruct (notice_for_stuck os base_path self_path _ name Hc Hst)
    as [Heq|[what Heq]].
  - exfalso. rewrite notice_for_spec, Hc in Heq.
    change (target_folder g_extension_to_folder_map name)
      with (classify (extension name)) in Heq.
    unfold fs_exists, exists_in in Heq. rewrite Hx0 in Heq.
    destruct x as [d|children|]; [|by destruct (Hnot children)|].
    + by destruct (rename_fault os name (classify (extension name))).
    + by destruct (rename_fault os name (classify (extension name))).
  - exists what. apply Hline. rewrite Heq. by left.
Qed.

Lemma organize_reports_occupied_category_witness :
  (organize no_faults "/d" "/bin/organize"
     {[ "q.zzz" := File "Q"; "Others" := File "taken" ]}).1.1 !! "q.zzz"
  = Some (File "Q") ∧
  ∃ what, ErrorMoving "q.zzz" what
          ∈ (organize no_faults "/d" "/bin/organize"
               {[ "q.zzz" := File "Q"; "Others" := File "taken" ]}).1.2.
Proof.
  assert (Hret : (organize no_faults "/d" "/bin/organize"
                    {[ "q.zzz" := File "Q"; "Others" := File "taken" ]}).2
                 = Returned) by (vm_compute; reflexivity).
  apply (organize_reports_occupied_category no_faults "/d" "/bin/organize"
           {[ "q.zzz" := File "Q"; "Others" := File "taken" ]} "q.zzz" "Q"
           (File "taken")).
  - reflexivity.
  - discriminate.
  - discriminate.
  - reflexivity.
  - discriminate.
  - rewrite <- Hret. apply run_eta.
Defined.




(** ** File names *)

Lemma append_cons c s t : String c s +:+ t = String c (s +:+ t).
Proof. reflexivity. Qed.

Lemma append_nil_r s : s +:+ "" = s.
Proof. induction s as [|c s IH]; [done|]. by rewrite append_cons, IH. Qed.

Lemma append_assoc s t u : (s +:+ t) +:+ u = s +:+ t +:+ u.
Proof. induction s as [|c s IH]; [done|]. by rewrite !append_cons, IH. Qed.

Lemma from_last_dot_None s : from_last_dot s = None → has_dot s = false.
Proof.
  unfold has_dot. induction s as [|c r IH]; simpl; [done|].
  destruct (from_last_dot r); [done|]. case_decide; [done|]. intros _.
  rewrite IH by done. by rewrite bool_decide_eq_false_2.
Qed.

(** What is found from the rightmost period on is a suffix, and has no
    other period. *)
Lemma from_last_dot_Some s t :
  from_last_dot s = Some t →
  ∃ pre rest, s = pre +:+ t ∧ t = String "."%char rest ∧ has_dot rest = false.
Proof.
  revert t. induction s as [|c r IH]; intros t; simpl; [done|].
  destruct (from_last_dot r) as [t'|] eqn:Hr.
  - intros [= <-]. destruct (IH t' eq_refl) as (pre & rest & -> & -> & Hrest).
    by exists (String c pre), rest.
  - case_decide as Hc; [|done]. intros [= <-]. subst c.
    exists "", r. split_and!; try done. by apply from_last_dot_None.
Qed.

(** A period followed by period-free text, at the end of a string, is
    what is found from the rightmost period on. *)
Lemma from_last_dot_append s rest :
  has_dot rest = false →
  from_last_dot (s +:+ String "."%char rest) = Some (String "."%char rest).
Proof.
  intros Hrest. induction s as [|c s IH].
  - change ("" +:+ String "."%char rest) with (String "."%char rest). simpl.
    by rewrite (from_last_dot_no_dot _ Hrest).
  - rewrite append_cons. simpl. by rewrite IH.
Qed.

(** The extension taken from a file name is a suffix of the name, and is
    either empty or one period followed by text without a period. *)
Lemma extension_shape name :
  (∃ stem, name = stem +:+ extension name) ∧
  (extension name = ""
   ∨ ∃ rest, extension name = String "."%char rest ∧ has_dot rest = false).
Proof.
  destruct name as [|c r]; [split; [by exists ""|by left]|].
  unfold extension. case_decide as Hdd.
  { split; [|by left]. exists (String c r). by rewrite append_nil_r. }
  destruct (from_last_dot r) as [t|] eqn:Hr.
  - apply from_last_dot_Some in Hr as (pre & rest & -> & -> & Hrest).
    split; [by exists (String c pre)|]. right. by exists rest.
  - split; [|by left]. exists (String c r). by rewrite append_nil_r.
Qed.

(** A name made of a non-empty stem, a period and period-free text has
    that period and text as its extension, except the name dot-dot, which
    has none. *)
Lemma extension_of_append stem rest :
  stem ≠ "" → has_dot rest = false → ¬ (stem = "." ∧ rest = "") →
  extension (stem +:+ String "."%char rest) = String "."%char rest.
Proof.
  intros Hstem Hrest Hdd. destruct stem as [|c stem]; [done|].
  rewrite append_cons. unfold extension.
  rewrite from_last_dot_append by done.
  case_decide as Heq; [|done]. destruct Hdd.
  injection Heq as -> Heq.
  destruct stem as [|d stem].
  - by injection Heq as ->.
  - rewrite append_cons in Heq. injection Heq as _ Heq.
    by destruct stem.
Qed.

Lemma lower_has_dot s : has_dot (Chars.lower s) = has_dot s.
Proof.
  unfold has_dot. induction s as [|c s IH]; [done|]. simpl. rewrite IH. f_equal.
  destruct c as [b0 b1 b2 b3 b4 b5 b6 b7].
  destruct b0, b1, b2, b3, b4, b5, b6, b7; reflexivity.
Qed.

(** X10: the key that [organize_files] looks up for a file, its
    extension in lower case, never holds two periods, so the entries
    [.tar.gz], [.tar.bz2] and [.tar.xz] of the table are never the key
    of a lookup made for a file; a file whose name ends in one of them is
    classified all the same into Compressed, through [.gz], [.bz2] or
    [.xz]. *)
Theorem compound_extensions name stem :
  (Chars.lower (extension name) ∉ [".tar.gz"; ".tar.bz2"; ".tar.xz"]) ∧
  classify (extension (stem +:+ ".tar.gz")) = "Compressed" ∧
  classify (extension (stem +:+ ".tar.bz2")) = "Compressed" ∧
  classify (extension (stem +:+ ".tar.xz")) = "Compressed".
Proof.
  split.
  - destruct (extension_shape name) as [_ [->|(rest & -> & Hrest)]].
    + intros Hin. repeat (apply elem_of_cons in Hin as [Hin|Hin]; [done|]).
      by apply elem_of_nil in Hin.
    + rewrite <- lower_has_dot in Hrest. simpl.
      intros Hin.
      repeat (apply elem_of_cons in Hin as [Hin|Hin];
              [injection Hin as Hkey; rewrite Hkey in Hrest;
               vm_compute in Hrest; discriminate Hrest|]).
      by apply elem_of_nil in Hin.
  - assert (Hext : ∀ rest, has_dot rest = false →
                           extension (stem +:+ ".tar" +:+ String "."%char rest)
                           = String "."%char rest).
    { intros rest Hrest. rewrite <- append_assoc.
      apply extension_of_append; [|done|].
      - by destruct stem.
      - intros [Heq _]. destruct stem as [|c [|d stem]]; discriminate Heq. }
    split_and!.
    + change (stem +:+ ".tar.gz") with (stem +:+ ".tar" +:+ String "."%char "gz").
      by rewrite Hext.
    + change (stem +:+ ".tar.bz2") with (stem +:+ ".tar" +:+ String "."%char "bz2").
      by rewrite Hext.
    + change (stem +:+ ".tar.xz") with (stem +:+ ".tar" +:+ String "."%char "xz").
      by rewrite Hext.
Qed.

(** ** Argument trimming *)

Lemma occurs_append c s t : occurs c (s +:+ t) = occurs c s || occurs c t.
Proof.
  induction s as [|d s IH]; [done|].
  rewrite append_cons. simpl. by rewrite IH, orb_assoc.
Qed.

Lemma all_in_append set s t : all_in set (s +:+ t) = all_in set s && all_in set t.
Proof.
  induction s as [|d s IH]; [done|].
  rewrite append_cons. simpl. by rewrite IH, andb_assoc.
Qed.

Lemma all_in_mono set1 set2 s :
  (∀ c, occurs c set1 = true → occurs c set2 = true) →
  all_in set1 s = true → all_in set2 s = true.
Proof.
  intros Hsub. induction s as [|c s IH]; [done|]. simpl.
  intros [Hc Hs]%andb_true_iff. by rewrite (Hsub c Hc), IH.
Qed.

Section stripping.
Variable set : string.

Lemma drop_leading_split s :
  ∃ pre, s = pre +:+ drop_leading set s ∧ all_in set pre = true.
Proof.
  induction s as [|c s (pre & IH & Hpre)]; [by exists ""|]. simpl.
  destruct (occurs c set) eqn:Hc; [|by exists ""].
  exists (String c pre). rewrite append_cons, <- IH. simpl. by rewrite Hc, Hpre.
Qed.

Lemma drop_trailing_split s :
  ∃ post, s = drop_trailing set s +:+ post ∧ all_in set post = true.
Proof.
  induction s as [|c s (post & IH & Hpost)]; [by exists ""|]. simpl.
  destruct (drop_trailing set s) as [|d t] eqn:Ht.
  - destruct (occurs c set) eqn:Hc.
    + exists (String c s). split; [done|]. simpl. rewrite Hc.
      rewrite IH. by rewrite all_in_append.
    + exists post. rewrite append_cons. by rewrite <- IH.
  - exists post. rewrite append_cons. by rewrite <- IH.
Qed.

Lemma strip_split s :
  ∃ pre post, s = pre +:+ strip set s +:+ post ∧
              all_in set pre = true ∧ all_in set post = true.
Proof.
  destruct (drop_leading_split s) as (pre & Hs & Hpre).
  destruct (drop_trailing_split (drop_leading set s)) as (post & Ht & Hpost).
  exists pre, post. split_and!; try done. unfold strip. by rewrite <- Ht.
Qed.

Lemma drop_leading_start s : starts_with_any set (drop_leading set s) = false.
Proof.
  induction s as [|c s IH]; [done|]. simpl.
  destruct (occurs c set) eqn:Hc; [done|]. by simpl.
Qed.

Lemma drop_trailing_start s :
  starts_with_any set s = false → starts_with_any set (drop_trailing set s) = false.
Proof.
  destruct s as [|c s]; [done|]. simpl. intros Hc. rewrite Hc.
  by destruct (drop_trailing set s).
Qed.

Lemma drop_trailing_end s : ends_with_any set (drop_trailing set s) = false.
Proof.
  induction s as [|c s IH]; [done|]. simpl.
  destruct (drop_trailing set s) as [|d t] eqn:Ht.
  - destruct (occurs c set) eqn:Hc; [done|]. by simpl.
  - done.
Qed.

Lemma drop_leading_id s : starts_with_any set s = false → drop_leading set s = s.
Proof. destruct s as [|c s]; [done|]. simpl. by intros ->. Qed.

Lemma drop_trailing_id s : ends_with_any set s = false → drop_trailing set s = s.
Proof.
  induction s as [|c s IH]; [done|]. simpl.
  destruct s as [|d s]; [by intros ->|].
  intros Hend. by rewrite IH.
Qed.

End stripping.

Lemma starts_with_any_append set1 set2 s :
  starts_with_any (set1 +:+ set2) s = false →
  starts_with_any set1 s = false ∧ starts_with_any set2 s = false.
Proof.
  destruct s as [|c s]; [done|]. simpl. rewrite occurs_append.
  by intros [? ?]%orb_false_iff.
Qed.

Lemma ends_with_any_append set1 set2 s :
  ends_with_any (set1 +:+ set2) s = false →
  ends_with_any set1 s = false ∧ ends_with_any set2 s = false.
Proof.
  induction s as [|c s IH]; [done|]. simpl.
  destruct s as [|d s]; [|done].
  rewrite occurs_append. by intros [? ?]%orb_false_iff.
Qed.

(** X11: [trim_path] only removes from the two ends: its argument is the
    result between a prefix and a suffix made of whitespace and quote
    characters only; what is inside, blanks and quotes included, is
    kept. *)
Theorem trim_path_removes_only_ends raw :
  ∃ pre post,
    raw = pre +:+ trim_path raw +:+ post ∧
    all_in (whitespace +:+ quotes) pre = true ∧
    all_in (whitespace +:+ quotes) post = true.
Proof.
  rewrite trim_path_trim_spec. unfold trim_spec.
  destruct (strip_split whitespace raw) as (p1 & q1 & H1 & Hp1 & Hq1).
  destruct (strip_split quotes (strip whitespace raw)) as (p2 & q2 & H2 & Hp2 & Hq2).
  exists (p1 +:+ p2), (q2 +:+ q1). split_and!.
  - remember (strip whitespace raw) as s1 eqn:Hs1.
    remember (strip quotes s1) as s2 eqn:Hs2. clear Hs1 Hs2.
    by rewrite H1, H2, !append_assoc.
  - rewrite all_in_append. apply andb_true_iff. split.
    + apply (all_in_mono whitespace); [|done].
      intros c Hc. by rewrite occurs_append, Hc.
    + apply (all_in_mono quotes); [|done].
      intros c Hc. by rewrite occurs_append, Hc, orb_true_r.
  - rewrite all_in_append. apply andb_true_iff. split.
    + apply (all_in_mono quotes); [|done].
      intros c Hc. by rewrite occurs_append, Hc, orb_true_r.
    + apply (all_in_mono whitespace); [|done].
      intros c Hc. by rewrite occurs_append, Hc.
Qed.

(** X12: the result of [trim_path] neither starts nor ends with a quote
    character. *)
Theorem trim_path_no_outer_quotes raw :
  starts_with_any quotes (trim_path raw) = false ∧
  ends_with_any quotes (trim_path raw) = false.
Proof.
  rewrite trim_path_trim_spec. unfold trim_spec, strip. split.
  - apply drop_trailing_start, drop_leading_start.
  - apply drop_trailing_end.
Qed.

(** X13: an argument that neither starts nor ends with a whitespace or
    quote character is returned as it is by [trim_path]. *)
Theorem trim_path_plain raw :
  starts_with_any (whitespace +:+ quotes) raw = false →
  ends_with_any (whitespace +:+ quotes) raw = false →
  trim_path raw = raw.
Proof.
  intros [Hsw Hsq]%starts_with_any_append [Hew Heq]%ends_with_any_append.
  rewrite trim_path_trim_spec. unfold trim_spec, strip.
  rewrite (drop_leading_id whitespace) by done.
  rewrite (drop_trailing_id whitespace) by done.
  rewrite (drop_leading_id quotes) by done.
  by rewrite (drop_trailing_id quotes).
Qed.

Lemma trim_path_plain_witness :
  trim_path "/home/me/My 'old' files" = "/home/me/My 'old' files".
Proof.
  apply (trim_path_plain "/home/me/My 'old' files"); reflexivity.
Defined.

(** ** The extension index *)

(** An extension that no entry of the table lists keeps what the index
    held for it before the build. *)
Lemma build_extension_map_from_unlisted fm g k :
  (∀ v e, (v, e) ∈ fm → k ∉ e) →
  build_extension_map_from fm g !! k = g !! k.
Proof.
  unfold build_extension_map_from. revert g.
  induction fm as [|[folder exts] fm IH]; intros g Hnot; simpl; [done|].
  rewrite IH by (intros v e Hin; apply (Hnot v); by right).
  rewrite add_extensions_lookup, decide_False; [done|].
  apply (Hnot folder). by left.
Qed.

Lemma build_extension_map_from_app fm1 fm2 g :
  build_extension_map_from (fm1 ++ fm2) g
  = build_extension_map_from fm2 (build_extension_map_from fm1 g).
Proof. unfold build_extension_map_from. by rewrite foldl_app. Qed.

(** X14: the index built from the table maps an extension to a folder
    exactly when the table lists that extension under that folder: the
    build inverts the table, with no key lost, added or misfiled. *)
Theorem index_exact k v :
  g_extension_to_folder_map !! k = Some v ↔
  ∃ exts, (v, exts) ∈ FOLDER_MAP ∧ k ∈ exts.
Proof.
  split.
  - intros [Hk|H]%build_extension_map_from_sound; [|done].
    by rewrite lookup_empty in Hk.
  - intros (exts & Hin & Hk).
    apply build_extension_map_from_complete; [|right; by exists exts].
    intros v' e' Hin' Hk'.
    pose proof FOLDER_MAP_listed_once as Huniq. rewrite listed_once_spec in Huniq.
    by apply (Huniq v' e' v exts k).
Qed.

(** X15: the index does not depend on the order in which
    [build_extension_map] visits the unordered table: the build over any
    enumeration of [FOLDER_MAP] gives the same index. *)
Theorem index_independent_of_enumeration fm :
  fm ≡ₚ FOLDER_MAP →
  build_extension_map_from fm ∅ = g_extension_to_folder_map.
Proof. apply build_extension_map_order. Qed.

Lemma index_independent_of_enumeration_witness :
  build_extension_map_from (reverse FOLDER_MAP) ∅ = g_extension_to_folder_map.
Proof.
  apply (index_independent_of_enumeration (reverse FOLDER_MAP)).
  apply reverse_Permutation.
Defined.

(** X16: when a table lists an extension more than once, the entry
    visited last decides: after the build the extension is mapped to the
    folder of the last entry that lists it, whatever the index held
    before. *)
Theorem build_extension_map_last_wins fm1 folder exts fm2 g k :
  k ∈ exts →
  (∀ v e, (v, e) ∈ fm2 → k ∉ e) →
  build_extension_map_from (fm1 ++ (folder, exts) :: fm2) g !! k = Some folder.
Proof.
  intros Hk Hlast.
  rewrite build_extension_map_from_app.
  change ((folder, exts) :: fm2) with ([(folder, exts)] ++ fm2).
  rewrite build_extension_map_from_app.
  rewrite build_extension_map_from_unlisted by done.
  unfold build_extension_map_from. simpl.
  by rewrite add_extensions_lookup, decide_True.
Qed.

Lemma build_extension_map_last_wins_witness :
  build_extension_map_from
    ([("Text", [".md"; ".txt"])] ++ ("Notes", [".md"]) :: [("Audio", [".mp3"])])
    {[ ".md" := "Old" ]} !! ".md" = Some "Notes".
Proof.
  apply (build_extension_map_last_wins [("Text", [".md"; ".txt"])] "Notes" [".md"]
           [("Audio", [".mp3"])] {[ ".md" := "Old" ]} ".md").
  - by left.
  - intros v e Hin Hk. apply list_elem_of_singleton in Hin. injection Hin as -> ->.
    apply list_elem_of_singleton in Hk. discriminate Hk.
Defined.

(** X17: building the index again changes nothing: a second call of
    [build_extension_map] leaves the global as the first call left it,
    whatever it held before the first. *)
Theorem build_extension_map_idempotent g :
  build_extension_map (build_extension_map g) = build_extension_map g.
Proof.
  apply map_eq. intros k. unfold build_extension_map.
  destruct (decide (in_category_table k)) as [Hin|Hnot].
  - apply Exists_exists in Hin as ([v exts] & Hin & Hk). simpl in Hk.
    pose proof FOLDER_MAP_listed_once as Huniq. rewrite listed_once_spec in Huniq.
    assert (Hv : ∀ g', build_extension_map_from FOLDER_MAP g' !! k = Some v).
    { intros g'. apply build_extension_map_from_complete; [|right; by exists exts].
      intros v' e' Hin' Hk'. by apply (Huniq v' e' v exts k). }
    by rewrite !Hv.
  - apply build_extension_map_from_unlisted. intros v e Hin Hk.
    apply Hnot, Exists_exists. by exists (v, e).
Qed.

(** ** Folder provisioning *)

(** X18: when [ensure_folders] returns, the directory is what it was
    plus one empty directory at each category name that was free: every
    entry that existed is untouched (an existing folder keeps its
    contents), and no other name appears. *)
Theorem ensure_folders_result os base_path root name :
  (ensure_folders os base_path root).2 = Returned →
  (ensure_folders os base_path root).1 !! name
  = match root !! name with
    | Some x => Some x
    | None =>
        if decide (name ∈ folder_names FOLDER_MAP) then Some (Dir ∅) else None
    end.
Proof. apply ensure_folders_loop_lookup. Qed.

Lemma ensure_folders_result_witness :
  (ensure_folders no_faults "/d"
     {[ "Music" := Dir {[ "old.mp3" := File "O" ]} ]}).1 !! "Music"
  = Some (Dir {[ "old.mp3" := File "O" ]}) ∧
  (ensure_folders no_faults "/d"
     {[ "Music" := Dir {[ "old.mp3" := File "O" ]} ]}).1 !! "Video"
  = Some (Dir ∅).
Proof.
  split.
  - rewrite (ensure_folders_result no_faults "/d"
               {[ "Music" := Dir {[ "old.mp3" := File "O" ]} ]} "Music");
      reflexivity.
  - rewrite (ensure_folders_result no_faults "/d"
               {[ "Music" := Dir {[ "old.mp3" := File "O" ]} ]} "Video");
      reflexivity.
Defined.

(** X19: the folders [ensure_folders] provides do not depend on the
    order in which it visits the unordered table: whenever it returns,
    the loop over any enumeration of [FOLDER_MAP] returns too, with the
    same directory. *)
Theorem ensure_folders_independent_of_enumeration os base_path fm root :
  fm ≡ₚ FOLDER_MAP →
  (ensure_folders os base_path root).2 = Returned →
  ensure_folders_loop os base_path (folder_names fm) root
  = ensure_folders os base_path root.
Proof.
  intros Hperm Hret. apply ensure_folders_loop_order; [|done].
  unfold folder_names. by rewrite Hperm.
Qed.

Lemma ensure_folders_independent_of_enumeration_witness :
  ensure_folders_loop no_faults "/d" (folder_names (reverse FOLDER_MAP))
    {[ "Music" := Dir ∅ ]}
  = ensure_folders no_faults "/d" {[ "Music" := Dir ∅ ]}.
Proof.
  apply (ensure_folders_independent_of_enumeration no_faults "/d"
           (reverse FOLDER_MAP) {[ "Music" := Dir ∅ ]}).
  - apply reverse_Permutation.
  - vm_compute. reflexivity.
Defined.

(** ** The exit code *)


(** What exceptions do to a run of [main] on a directory that holds
    [a.txt]: when the entries cannot be examined, the scan ends at the
    first of them, the file is still there, and the exit code is 1; when
    a path cannot be resolved, the run ends before the announcement with
    exit code 1; when a test of the path fails, the program is aborted
    and prints no line of its own. *)
Example scenario_exceptions :
  let os := {| mkdir_fault := λ _, None;
               rename_fault := λ _ _, None;
               stat_fault := λ _ _, None;
               open_fault := None;
               scan_fault := λ _, Some "Input/output error";
               end_fault := None |} in
  let w := {| os_faults := os; current_path := "/home";
              status := λ p, if decide (p = "/d")
                             then Directory "/d" {[ "a.txt" := File "A" ]}
                             else if decide (p = "/loop")
                             then Unresolved "Too many levels of symbolic links"
                             else StatError "Permission denied";
              weakly_canonical := λ p, p |} in
  (main w ["organize"; "/d"]).1
  = (1%Z, [Organizing "/d"; Unexpected "Input/output error"]) ∧
  (∃ root', (main w ["organize"; "/d"]).2 = Some root' ∧
            root' !! "a.txt" = Some (File "A")) ∧
  main w ["organize"; "/loop"]
  = (1%Z, [Unexpected "Too many levels of symbolic links"], None) ∧
  main w ["organize"; "/secret/d"] = (aborted, [], None).
Proof.
  intros os w. split_and!.
  - vm_compute. reflexivity.
  - destruct (main w ["organize"; "/d"]).2 as [root'|] eqn:Hrun;
      [|by vm_compute in Hrun].
    exists root'. split; [done|].
    assert (Hfile : (default ∅ (main w ["organize"; "/d"]).2) !! "a.txt"
                    = Some (File "A")) by (vm_compute; reflexivity).
    by rewrite Hrun in Hfile.
  - vm_compute. reflexivity.
  - vm_compute. reflexivity.
Qed.

(** ** The order of the scan *)

Section scan_order.
Context (os : faults) (g : gmap string string) (base_path self_path : string).

Local Abbreviation entry := (organize_entry os g base_path self_path).
Local Abbreviation entries := (organize_entries os g base_path self_path).
Local Abbreviation can_move := (movable os g base_path self_path).

(** What the body does to the directory does not depend on the console. *)
Lemma organize_entry_root root out n :
  (entry (root, out) n).1 = (entry (root, []) n).1.
Proof.
  unfold organize_entry.
  destruct (_ && _); [|done].
  destruct (empty _); [done|].
  destruct (fs_exists _ _ _ _) as [w|[|]]; [done|done|].
  by destruct (rename _ _ _ _).
Qed.

Lemma organize_entry_movable root out n :
  can_move root n = true →
  ∃ data children,
    root !! n = Some (File data) ∧
    root !! target_folder g n = Some (Dir children) ∧
    children !! n = None ∧
    (entry (root, out) n).1 = moved n (target_folder g n) data children root.
Proof.
  intros Hmove.
  destruct (organize_entry_cases os g base_path self_path root out n)
    as [[Hc _]|[(_ & Hex & _)|[(_ & _ & Hst & _)|
        (_ & d & ch & Hd & Hch & Hfree & ->)]]].
  - apply candidate_movable in Hmove. congruence.
  - apply fs_exists_true in Hex as [Hex _].
    apply (exists_in_not_movable os g base_path self_path) in Hex. congruence.
  - congruence.
  - by exists d, ch.
Qed.

(** Moving one file leaves every other movable file movable. *)
Lemma movable_moved_other root n data children m :
  root !! n = Some (File data) →
  root !! target_folder g n = Some (Dir children) →
  can_move root m = true → m ≠ n →
  can_move (moved n (target_folder g n) data children root) m = true.
Proof.
  intros Hn Hc Hmove Hne.
  destruct (movable_awaits os g base_path self_path root m Hmove)
    as (dm & (Hm & chm & Hcm & Hfree) & _).
  revert Hmove.
  unfold movable, candidate, is_regular_file, exists_in, is_directory.
  rewrite !moved_lookup.
  rewrite (decide_False (P := target_folder g n = m)) by (intros Heq; congruence).
  rewrite (decide_False (P := n = m)) by done.
  destruct (decide (target_folder g n = target_folder g m)) as [Heq|Hcc].
  - rewrite <- Heq, Hc. by rewrite lookup_insert_ne.
  - by rewrite (decide_False (P := n = target_folder g m))
      by (intros Heq; congruence).
Qed.

(** The body for one entry and the body for another commute on the
    directory. *)
Lemma organize_entry_commute root n m :
  (entry ((entry (root, []) n).1, []) m).1
  = (entry ((entry (root, []) m).1, []) n).1.
Proof.
  destruct (decide (n = m)) as [->|Hne]; [done|].
  destruct (can_move root n) eqn:Hn; destruct (can_move root m) eqn:Hm.
  - destruct (organize_entry_movable root [] n Hn)
      as (dn & chn & Hdn & Hcn & Hfn & Hsn).
    destruct (organize_entry_movable root [] m Hm)
      as (dm & chm & Hdm & Hcm & Hfm & Hsm).
    rewrite Hsn, Hsm.
    pose proof (movable_moved_other root n dn chn m Hdn Hcn Hm (not_eq_sym Hne))
      as Hm'.
    pose proof (movable_moved_other root m dm chm n Hdm Hcm Hn Hne) as Hn'.
    destruct (organize_entry_movable _ [] m Hm')
      as (dm' & chm' & Hdm' & Hcm' & _ & ->).
    destruct (organize_entry_movable _ [] n Hn')
      as (dn' & chn' & Hdn' & Hcn' & _ & ->).
    rewrite moved_lookup in Hdm', Hcm', Hdn', Hcn'.
    assert (target_folder g n ≠ m) by (intros Heq; congruence).
    assert (target_folder g m ≠ n) by (intros Heq; congruence).
    assert (target_folder g n ≠ n) by (intros Heq; congruence).
    assert (target_folder g m ≠ m) by (intros Heq; congruence).
    assert (Hne' : m ≠ n) by by apply not_eq_sym.
    rewrite (decide_False (P := target_folder g n = m)) in Hdm' by done.
    rewrite (decide_False (P := n = m)) in Hdm' by done.
    rewrite (decide_False (P := target_folder g m = n)) in Hdn' by done.
    rewrite (decide_False (P := m = n)) in Hdn' by done.
    assert (dm' = dm) as -> by congruence.
    assert (dn' = dn) as -> by congruence.
    apply map_eq. intros k. rewrite !moved_lookup.
    destruct (decide (target_folder g n = target_folder g m)) as [Hcc|Hcc].
    + rewrite (decide_True (P := target_folder g m = target_folder g n))
        in Hcn' by done.
      rewrite Hcc in *.
      assert (chm = chn) as -> by congruence.
      injection Hcm' as <-. injection Hcn' as <-.
      destruct (decide (target_folder g m = k)) as [_|_].
      * by rewrite insert_insert_ne by done.
      * destruct (decide (m = k)), (decide (n = k)); done.
    + rewrite (decide_False (P := n = target_folder g m))
        in Hcm' by (by apply not_eq_sym).
      rewrite (decide_False (P := target_folder g m = target_folder g n))
        in Hcn' by (by apply not_eq_sym).
      rewrite (decide_False (P := m = target_folder g n))
        in Hcn' by (by apply not_eq_sym).
      assert (chm' = chm) as -> by congruence.
      assert (chn' = chn) as -> by congruence.
      destruct (decide (target_folder g m = k)) as [Ek1|?],
               (decide (target_folder g n = k)) as [Ek2|?],
               (decide (m = k)) as [Ek3|?], (decide (n = k)) as [Ek4|?];
        try done; congruence.
  - destruct (organize_entry_movable root [] n Hn)
      as (dn & chn & Hdn & Hcn & Hfn & Hsn).
    rewrite (organize_entry_stuck os g base_path self_path root [] m Hm).
    rewrite organize_entry_stuck; [done|].
    apply not_true_is_false. rewrite Hsn.
    intros [? _]%movable_moved; [congruence|done..].
  - destruct (organize_entry_movable root [] m Hm)
      as (dm & chm & Hdm & Hcm & Hfm & Hsm).
    rewrite (organize_entry_stuck os g base_path self_path root [] n Hn).
    symmetry. rewrite organize_entry_stuck; [done|].
    apply not_true_is_false. rewrite Hsm.
    intros [? _]%movable_moved; [congruence|done..].
  - rewrite (organize_entry_stuck os g base_path self_path root [] n Hn).
    rewrite (organize_entry_stuck os g base_path self_path root [] m Hm).
    by rewrite (organize_entry_stuck os g base_path self_path root [] n Hn).
Qed.

Lemma organize_entries_root names root out :
  (entries names (root, out)).1
  = foldl (λ r n, (entry (r, []) n).1) root names.
Proof.
  revert root out. induction names as [|n names IH]; intros root out; [done|].
  rewrite organize_entries_cons. cbn [foldl].
  rewrite <- (organize_entry_root root out n).
  destruct (entry (root, out) n) as [root' out']. apply IH.
Qed.

(** The directory a scan leaves does not depend on the order in which
    the names are visited. *)
Lemma organize_entries_root_order names names' root out :
  names' ≡ₚ names →
  (entries names' (root, out)).1 = (entries names (root, out)).1.
Proof.
  rewrite !organize_entries_root. intros Hperm. revert root.
  induction Hperm as [|n l l' _ IH|n m l|l l' l'' _ IH1 _ IH2]; intros root.
  - done.
  - cbn [foldl]. apply IH.
  - cbn [foldl]. by rewrite organize_entry_commute.
  - by rewrite IH1, IH2.
Qed.

End scan_order.

(** X21: the result of a run does not depend on the order in which the
    directory iterator yields the entries: had the scan of a completed
    run visited the entries in any other order, it would have left the
    same directory and printed the same lines, in some order. *)
Theorem organize_independent_of_scan_order os base_path self_path root names
    root' out :
  organize os base_path self_path root = (root', out, Returned) →
  names ≡ₚ (map_to_list (ensure_folders os base_path root).1).*1 →
  (organize_entries os g_extension_to_folder_map base_path self_path names
     ((ensure_folders os base_path root).1, [])).1 = root' ∧
  (organize_entries os g_extension_to_folder_map base_path self_path names
     ((ensure_folders os base_path root).1, [])).2 ≡ₚ out.
Proof.
  intros Hrun Hperm.
  apply organize_run_returned in Hrun as Hscan.
  split.
  - rewrite (organize_entries_root_order os g_extension_to_folder_map base_path
               self_path _ _ _ _ Hperm).
    by rewrite <- Hscan.
  - assert (out = (organize_entries os g_extension_to_folder_map base_path
                     self_path
                     (map_to_list (ensure_folders os base_path root).1).*1
                     ((ensure_folders os base_path root).1, [])).2) as ->
      by by rewrite <- Hscan.
    rewrite !(organize_entries_console os g_extension_to_folder_map base_path
                self_path classify_plain), !app_nil_l.
    by rewrite Hperm.
Qed.

Lemma organize_independent_of_scan_order_witness :
  (organize_entries no_faults g_extension_to_folder_map "/d" "/bin/organize"
     (reverse (map_to_list (ensure_folders no_faults "/d"
                              {[ "a.txt" := File "A"; "b.mp3" := File "B" ]}).1).*1)
     ((ensure_folders no_faults "/d"
         {[ "a.txt" := File "A"; "b.mp3" := File "B" ]}).1, [])).1
  = (organize no_faults "/d" "/bin/organize"
       {[ "a.txt" := File "A"; "b.mp3" := File "B" ]}).1.1.
Proof.
  assert (Hret : (organize no_faults "/d" "/bin/organize"
                    {[ "a.txt" := File "A"; "b.mp3" := File "B" ]}).2 = Returned)
    by (vm_compute; reflexivity).
  apply (organize_independent_of_scan_order no_faults "/d" "/bin/organize"
           {[ "a.txt" := File "A"; "b.mp3" := File "B" ]} _ _
           (organize no_faults "/d" "/bin/organize"
              {[ "a.txt" := File "A"; "b.mp3" := File "B" ]}).1.2).
  - rewrite <- Hret. apply run_eta.
  - apply reverse_Permutation.
Defined.
